(** * Token classification task: training, evaluation and inference loops

    A shallow embedding of [src/tasks/token_classification.py]
    ([TokenClassificationTask]) and of the schedule and the epoch loop of the
    driver [train.py], and the properties of their loops.

    Numbers.  Python integers are [Z], and so are the token ids, the labels
    and the 0/1 entries of the masks.  Python floats that the loops compute
    with (the loss total, [steps / gradient_accumulation_steps], the accuracy
    ratio) are exact rationals [Q]; a division whose divisor is zero raises
    [ZeroDivisionError] as in Python.  Tensor elements that only go through
    torch (logits, probabilities, the threshold) belong to a type [F] that is
    a parameter, with torch's [sigmoid] and elementwise [>] on it; the model,
    the elementwise loss, torch's mean and the two sklearn metrics are
    parameters too.

    Tensors.  A rank-2 tensor (batch x sequence) is the list of its rows.

    Effects.  The calls that change the model, the optimizer or the scheduler
    are appended to a log, which an exception leaves as it is; the model's
    output may depend on every call made before the forward pass. *)

From Stdlib Require Import Reals Lra.
From Stdlib Require Import String.
From Stdlib Require Import List ZArith QArith Qabs Qfield Bool Lia Arith.
Import ListNotations.
Local Open Scope Z_scope.

(** ** Exceptions and results *)

Inductive exn : Type :=
| NotImplementedError (msg : string)
| IndexError
| ValueError
| ZeroDivisionError
| AssertionError.

Inductive result (A : Type) : Type :=
| Ok (a : A)
| Err (e : exn).

Arguments Ok {A} a.
Arguments Err {A} e.

Definition rbind {A B} (r : result A) (k : A -> result B) : result B :=
  match r with
  | Ok a => k a
  | Err e => Err e
  end.

Declare Scope result_scope.
Delimit Scope result_scope with result.
Notation "x <- r ;; k" := (rbind r (fun x => k))
  (at level 61, r at next level, right associativity) : result_scope.

(** ** Tensors *)

Definition Tensor (A : Type) : Type := list (list A).

(** The shape, row by row.  A tensor of torch is rectangular, so for a batch
    of at least one row this list and the pair (batch size, sequence length)
    determine each other. *)
Definition shape {A} (t : Tensor A) : list nat := map (@length A) t.

(** [t.flatten()] *)
Definition flatten {A} (t : Tensor A) : list A := concat t.

(** Elementwise application. *)
Definition tmap {A B} (f : A -> B) (t : Tensor A) : Tensor B := map (map f) t.

(** [m.bool()]: a number is true when it is not zero. *)
Definition to_bool (m : Z) : bool := negb (m =? 0).

(** The elements of [xs] at the positions where [m] is true. *)
Fixpoint select {A} (xs : list A) (m : list bool) : list A :=
  match xs, m with
  | x :: xs', b :: m' => if b then x :: select xs' m' else select xs' m'
  | _, _ => []
  end.

(** [xs[m]] for a boolean mask [m]: torch raises [IndexError] unless the mask
    has the size of the indexed tensor. *)
Definition bool_index {A} (xs : list A) (m : list bool) : result (list A) :=
  if (length xs =? length m)%nat then Ok (select xs m) else Err IndexError.

(** [a.eq(b)] on two vectors, elementwise. *)
Fixpoint vec_eq (a b : list Z) : list bool :=
  match a, b with
  | x :: a', y :: b' => (x =? y) :: vec_eq a' b'
  | _, _ => []
  end.

(** [v.sum().item()] of a boolean vector. *)
Definition count_true (v : list bool) : Z :=
  Z.of_nat (length (filter (fun b => b) v)).

(** Elementwise combination of two tensors of one shape. *)
Definition tmap2 {A B C} (f : A -> B -> C) (a : Tensor A) (b : Tensor B)
    : Tensor C :=
  map (fun rr => map (fun xy => f (fst xy) (snd xy)) (combine (fst rr) (snd rr)))
      (combine a b).

(** [t.ne(v).float()]: 1 where the element differs from [v], else 0. *)
Definition tne (t : Tensor Z) (v : Z) : Tensor Z :=
  tmap (fun x => if x =? v then 0 else 1) t.

(** [t.sum().item()] *)
Definition tsum (t : Tensor Z) : Z := fold_right Z.add 0 (flatten t).

(** ** Python arithmetic *)

(** [a / b] on floats. *)
Definition pydiv (a b : Q) : result Q :=
  if Qeq_bool b 0 then Err ZeroDivisionError else Ok (a / b)%Q.

(** [a % b] on integers; [Z.modulo] has Python's sign convention. *)
Definition pymod (a b : Z) : result Z :=
  if b =? 0 then Err ZeroDivisionError else Ok (a mod b).

(** [int(q)]: truncation towards zero. *)
Definition pyint (q : Q) : Z := Z.quot (Qnum q) (Zpos (Qden q)).

(** ** The state the task acts on *)

(** The calls that change the model, the optimizer or the scheduler, each
    batch call with the index of its batch. *)
Inductive event : Type :=
| SetTrain
| SetEval
| ZeroGrad (batch_idx : nat)
| Backward (batch_idx : nat)
| ClipGrad (batch_idx : nat)
| OptimizerStep (batch_idx : nat)
| SchedulerStep (batch_idx : nat).

Record World : Type := {
  log : list event;      (* oldest first *)
  global_step : Z        (* self.global_step *)
}.

(** State and exceptions: an exception keeps the effects made before it. *)
Definition M (A : Type) : Type := World -> result A * World.

Definition ret {A} (a : A) : M A := fun w => (Ok a, w).

Definition bind {A B} (m : M A) (k : A -> M B) : M B :=
  fun w => match m w with
           | (Ok a, w') => k a w'
           | (Err e, w') => (Err e, w')
           end.

Definition raise {A} (e : exn) : M A := fun w => (Err e, w).

Definition lift {A} (r : result A) : M A := fun w => (r, w).

Definition emit (e : event) : M unit :=
  fun w => (Ok tt, {| log := log w ++ [e]; global_step := global_step w |}).

Definition history : M (list event) := fun w => (Ok (log w), w).

Definition add_global_step (k : Z) : M unit :=
  fun w => (Ok tt, {| log := log w; global_step := global_step w + k |}).

Declare Scope task_scope.
Delimit Scope task_scope with task.
Notation "x <- m ;; k" := (bind m (fun x => k))
  (at level 61, m at next level, right associativity) : task_scope.
Notation "m ;; k" := (bind m (fun _ => k))
  (at level 61, right associativity) : task_scope.

(** The batch indices of the optimizer steps, of the scheduler steps and of
    the batches entered, read off a log. *)
Definition optimizer_steps (l : list event) : list nat :=
  flat_map (fun e => match e with OptimizerStep i => [i] | _ => [] end) l.

Definition scheduler_steps (l : list event) : list nat :=
  flat_map (fun e => match e with SchedulerStep i => [i] | _ => [] end) l.

Definition batches_entered (l : list event) : list nat :=
  flat_map (fun e => match e with ZeroGrad i => [i] | _ => [] end) l.

(** [self.args] and the task's own fields. *)
Record Args : Type := {
  gradient_accumulation_steps : Z;
  steps_per_epoch : Z
}.

Record Task : Type := {
  args : Args;
  pad_token_id : Z;
  ignore_index : Z
}.

(** A batch: (token ids, labels) for training and evaluation,
    (token ids, token mask) for inference. *)
Definition Batch : Type := (Tensor Z * Tensor Z)%type.

(** The score bundle of [eval]. *)
Record Scores : Type := {
  eval_loss : Q;
  eval_acc : Q;
  eval_prec : Q;
  eval_rec : Q;
  eval_f_score : Q
}.

(** The locals of the training loop. *)
Record TrainState : Type := {
  total_loss : Q;
  n_pred_total : Z;
  n_pred_correct : Z;
  steps : Z
}.

(** The locals of the evaluation loop. *)
Record EvalState : Type := {
  e_total_loss : Q;
  e_steps : Z;
  e_preds : list (list Z);
  e_labels : list (list Z)
}.

(** [np.concatenate]: an empty list of arrays is a [ValueError]. *)
Definition np_concatenate {A} (l : list (list A)) : result (list A) :=
  match l with
  | [] => Err ValueError
  | _ => Ok (concat l)
  end.

(** ** The driver, [train.py] *)

(** The fields of the parsed arguments that the epoch loop and the schedule
    read. *)
Record Namespace : Type := {
  ns_gradient_accumulation_steps : Z;
  ns_batches_per_epoch : Z;
  ns_epochs : Z;
  ns_eval_every : Z
}.

(** What [compute_warmup_steps] adds to the arguments. *)
Record Schedule : Type := {
  sc_steps_per_epoch : Z;
  num_warmup_steps : Q;
  num_training_steps : Z
}.

(** [compute_warmup_steps], lines 75-83 of [train.py], with the default
    [warmup_persentage = 1.5]. *)
Definition compute_warmup_steps (ns : Namespace) : result Schedule :=
  (q <- pydiv (inject_Z (ns_batches_per_epoch ns))
              (inject_Z (ns_gradient_accumulation_steps ns)) ;;
   let steps_per_epoch := pyint q in
   Ok {| sc_steps_per_epoch := steps_per_epoch;
         num_warmup_steps := (inject_Z steps_per_epoch * (3 # 2))%Q;
         num_training_steps :=
           pyint (inject_Z (steps_per_epoch * ns_epochs ns)) |})%result.

(** Lines 122-123: [batches_per_epoch] becomes the length of the training
    epoch generator. *)
Definition with_batches_per_epoch (ns : Namespace) (len : Z) : Namespace :=
  {| ns_gradient_accumulation_steps := ns_gradient_accumulation_steps ns;
     ns_batches_per_epoch := len;
     ns_epochs := ns_epochs ns;
     ns_eval_every := ns_eval_every ns |}.

(** Lines 176-180: the task, with the default [ignore_index = -100]. *)
Definition driver_task (ns : Namespace) (sc : Schedule) (pad_token_id : Z)
    : Task :=
  {| args := {| gradient_accumulation_steps :=
                  ns_gradient_accumulation_steps ns;
                steps_per_epoch := sc_steps_per_epoch sc |};
     pad_token_id := pad_token_id;
     ignore_index := -100 |}.

(** What the epoch loop keeps and sends out: the best F1 so far, the training
    metrics logged (with their step), the score bundles logged (with their
    step) and the checkpoints saved (the epoch in the file name and the
    [is_best] flag). *)
Record Driver : Type := {
  best_f1 : Q;
  train_metrics : list (Z * (Q * Q));
  eval_metrics : list (Z * Scores);
  checkpoints : list (Z * bool)
}.

Definition driver_init : Driver :=
  {| best_f1 := 0; train_metrics := []; eval_metrics := [];
     checkpoints := [] |}.

(** [epoch % eval_every == 0 or epoch == 1], line 198, when the modulo is
    defined. *)
Definition evaluates (eval_every epoch : Z) : bool :=
  (epoch mod eval_every =? 0) || (epoch =? 1).

(** The epochs [first], [first + 1], ... ([count] of them). *)
Definition epochs_from (first : Z) (count : nat) : list Z :=
  map (fun k => first + Z.of_nat k) (seq 0 count).

(** The F1 of each evaluation with the flag of its checkpoint. *)
Definition evaluations (d : Driver) : list (Q * bool) :=
  combine (map (fun es => eval_f_score (snd es)) (eval_metrics d))
          (map snd (checkpoints d)).

(** The best F1 bounds every F1 seen, a flag is raised only for a positive
    F1, and a positive best F1 is that of a flagged checkpoint. *)
Definition best_tracked (d : Driver) : Prop :=
  length (eval_metrics d) = length (checkpoints d) /\
  (0 <= best_f1 d)%Q /\
  (forall f flag, In (f, flag) (evaluations d) ->
     (f <= best_f1 d)%Q /\ (flag = true -> (0 < f)%Q)) /\
  ((0 < best_f1 d)%Q ->
   exists f, In (f, true) (evaluations d) /\ f = best_f1 d).

(** ** Instances used to run the task on concrete inputs *)

(** The fraction of positions at which two vectors agree. *)
Definition accuracy_ratio (labels preds : list Z) : Q :=
  (inject_Z (count_true (vec_eq labels preds)) /
   inject_Z (Z.of_nat (length labels)))%Q.

(** The arithmetic mean of a vector. *)
Definition qmean (v : list Q) : Q :=
  (fold_right Qplus 0 v / inject_Z (Z.of_nat (length v)))%Q.

(** The naive mean of per-batch accuracies. *)
Definition mean_of_batch_accuracies (acc : list Z -> list Z -> Q)
    (labels preds : list (list Z)) : Q :=
  qmean (map (fun lp => acc (fst lp) (snd lp)) (combine labels preds)).

(** A rational stand-in for the logistic function (which has no rational
    values off 0): increasing, between 0 and 1, with value 1/2 at 0. *)
Definition qsigmoid (x : Q) : Q := ((1 + x / (1 + Qabs x)) / 2)%Q.

Definition qgtb (x y : Q) : bool := negb (Qle_bool x y).

(** A model whose logit for a token is its id minus 2. *)
Definition qforward (h : list event) (src attn : Tensor Z) : Tensor Q :=
  tmap (fun t => inject_Z (t - 2)) src.

(** An elementwise loss: the squared distance between logit and label. *)
Definition qloss (l : Q) (y : Z) : Q :=
  ((l - inject_Z y) * (l - inject_Z y))%Q.

(** Macro precision, recall and F1 over the classes 0 and 1, a ratio with a
    zero denominator counting as 0. *)
Definition count_pairs (t p : Z) (labels preds : list Z) : Z :=
  Z.of_nat (length (filter (fun lp => (fst lp =? t) && (snd lp =? p))
                           (combine labels preds))).

Definition ratio (a b : Z) : Q :=
  if b =? 0 then 0%Q else (inject_Z a / inject_Z b)%Q.

Definition class_prf (c : Z) (labels preds : list Z) : Q * Q * Q :=
  let tp := count_pairs c c labels preds in
  let fp := count_pairs (1 - c) c labels preds in
  let fn := count_pairs c (1 - c) labels preds in
  let p := ratio tp (tp + fp) in
  let r := ratio tp (tp + fn) in
  (p, r, ratio (2 * tp) (2 * tp + fp + fn)).

Definition macro_prf (labels preds : list Z) : Q * Q * Q :=
  let '(p0, r0, f0) := class_prf 0 labels preds in
  let '(p1, r1, f1) := class_prf 1 labels preds in
  (((p0 + p1) / 2)%Q, ((r0 + r1) / 2)%Q, ((f0 + f1) / 2)%Q).

(** Tasks and batches to run on. *)
Definition task_of (gas spe : Z) : Task :=
  {| args := {| gradient_accumulation_steps := gas; steps_per_epoch := spe |};
     pad_token_id := 1;
     ignore_index := -100 |}.

Definition batch_a : Batch := ([[3; 0; 1]], [[1; 0; -100]]).
Definition batch_b : Batch := ([[0]; [4]], [[1]; [1]]).
Definition batch_c : Batch := ([[3; 3; 0]], [[0; 0; 0]]).
Definition batch_d : Batch := ([[3]], [[1]]).
Definition batch_ignored : Batch := ([[3; 0]], [[-100; -100]]).
Definition batch_misshaped : Batch := ([[3; 0]], [[1]]).

Definition world0 : World := {| log := []; global_step := 0 |}.

(** Logits, labels and a mask of one shape, and a second input that differs
    from the first only where the mask is 0. *)
Definition logits_x : Tensor Q := [[1; -2; 0]]%Q.
Definition labels_x : Tensor Z := [[1; 0; 1]].
Definition mask_x : Tensor Z := [[1; 1; 0]].
Definition logits_y : Tensor Q := [[1; -2; 7]]%Q.
Definition labels_y : Tensor Z := [[1; 0; 0]].

(** Arguments and epoch iterators for the driver: three training batches and
    two evaluation batches in every epoch. *)
Definition namespace_of (gas epochs eval_every : Z) : Namespace :=
  {| ns_gradient_accumulation_steps := gas;
     ns_batches_per_epoch := 500;
     ns_epochs := epochs;
     ns_eval_every := eval_every |}.

Definition train_itr0 (epoch : Z) : list Batch := [batch_a; batch_b; batch_c].
Definition eval_itr0 (epoch : Z) : list Batch := [batch_d; batch_c].

(** The logistic function on the reals, and the strict order as torch's
    [>]. *)
Definition Rsigmoid (x : R) : R := (1 / (1 + exp (- x)))%R.

Definition Rgtb (x y : R) : bool := if Rlt_dec y x then true else false.


Section TokenClassificationTask.

Variable F : Type.
Variable sigmoid : F -> F.
(** [gtb x y] is torch's [x > y]. *)
Variable gtb : F -> F -> bool.

(** [(p > th).long()] *)
Definition threshold (th p : F) : Z := if gtb p th then 1 else 0.

(** [compute_correct], lines 35-53. *)
Definition compute_correct (logits : Tensor F) (labels : Tensor Z)
    (mask : Tensor Z) (th : F) : result (Z * list Z * list Z) :=
  (let preds := tmap (fun l => threshold th (sigmoid l)) logits in
   let mask := map to_bool (flatten mask) in
   preds <- bool_index (flatten preds) mask ;;
   labels <- bool_index (flatten labels) mask ;;
   let n_correct := count_true (vec_eq preds labels) in
   Ok (n_correct, preds, labels))%result.

(** The count as the specification words it: the positions of the flattened
    tensors at which the mask is true and the thresholded sigmoid of the
    logit is the label. *)
Definition hit_at (logits : list F) (labels mask : list Z) (th : F)
    (i : nat) : bool :=
  match nth_error mask i, nth_error logits i, nth_error labels i with
  | Some m, Some l, Some y => to_bool m && (threshold th (sigmoid l) =? y)
  | _, _, _ => false
  end.

Definition masked_matches (logits : Tensor F) (labels mask : Tensor Z)
    (th : F) : Z :=
  Z.of_nat (length (filter
    (hit_at (flatten logits) (flatten labels) (flatten mask) th)
    (seq 0 (length (flatten mask))))).

(** Two inputs agree where the mask is true. *)
Definition agree_on_mask (mask : Tensor Z) (logits logits' : Tensor F)
    (labels labels' : Tensor Z) : Prop :=
  forall i m, nth_error (flatten mask) i = Some m -> to_bool m = true ->
    nth_error (flatten logits) i = nth_error (flatten logits') i /\
    nth_error (flatten labels) i = nth_error (flatten labels') i.


(** *** The external collaborators *)

(** The float 0.5, the default threshold. *)
Variable th_default : F.

(** The model: from the calls made so far (which fix its parameters and
    its mode), the token ids and the attention mask to the logits, after
    [.logits.squeeze(-1)]. *)
Variable forward : list event -> Tensor Z -> Tensor Z -> Tensor F.

(** [nn.BCEWithLogitsLoss]. *)
Record BCEWithLogitsLoss : Type := {
  reduction : string;
  pos_weight : option (list F)
}.

(** The elementwise loss of a configured functor, and torch's mean of a
    vector. *)
Variable bce_with_logits : BCEWithLogitsLoss -> F -> Z -> Q.
Variable tensor_mean : list Q -> Q.

(** sklearn's [precision_recall_fscore_support] with [average="macro"]
    (its first three results) and [accuracy_score]. *)
Variable precision_recall_fscore_support : list Z -> list Z -> Q * Q * Q.
Variable accuracy_score : list Z -> list Z -> Q.

(** [loss_fn(logits, labels)]: the functor rejects a target whose size is
    not the input's. *)
Definition apply_loss (loss_fn : BCEWithLogitsLoss) (logits : Tensor F)
    (labels : Tensor Z) : result (Tensor Q) :=
  if list_eq_dec Nat.eq_dec (shape logits) (shape labels)
  then Ok (tmap2 (bce_with_logits loss_fn) logits labels)
  else Err ValueError.

(** *** The task *)

(** [**kwargs] of [train] and [eval]. *)
Record Kwargs : Type := {
  loss_type : option string;
  kw_pos_weight : option (list F)
}.

(** [get_loss_fn], lines 23-33. *)
Definition get_loss_fn (type : string) (reduction : string)
    (pos_weight : option (list F)) : result BCEWithLogitsLoss :=
  if String.eqb type "binary_cross_entropy"
  then Ok {| reduction := reduction; pos_weight := pos_weight |}
  else Err (NotImplementedError ("loss " ++ type ++ " not yet implemented")).

(** [kwargs.get("loss_type", "binary_cross_entropy")] *)
Definition kw_loss_type (kwargs : Kwargs) : string :=
  match loss_type kwargs with
  | Some t => t
  | None => "binary_cross_entropy"%string
  end.

(** Lines 90-92 and 164-166: the elementwise loss, zeroed where the label
    mask is 0, averaged over the sequence and then over the batch. *)
Definition masked_loss (loss_fn : BCEWithLogitsLoss) (logits_t : Tensor F)
    (label_t label_mask : Tensor Z) : result Q :=
  (loss_t <- apply_loss loss_fn logits_t label_t ;;
   let loss_t := tmap2 (fun l m => (l * inject_Z m)%Q) loss_t label_mask in
   Ok (tensor_mean (map tensor_mean loss_t)))%result.

(** One turn of the training loop, lines 76-124; the boolean tells whether
    the loop breaks.  Lines 117-119 (cache release and progress print every
    50 batches) change none of the state kept here. *)
Definition train_batch (self : Task) (loss_fn : BCEWithLogitsLoss)
    (batch_idx : nat) (batch : Batch) (st : TrainState)
    : M (TrainState * bool) :=
  (let gas := gradient_accumulation_steps (args self) in
   let '(src_seq_t, label_t) := batch in
   let attention_mask := tne src_seq_t (pad_token_id self) in
   let label_mask := tne label_t (ignore_index self) in
   emit (ZeroGrad batch_idx) ;;
   h <- history ;;
   let logits_t := forward h src_seq_t attention_mask in
   loss_t <- lift (masked_loss loss_fn logits_t label_t label_mask) ;;
   let loss_t := if gas >? 1 then (loss_t / inject_Z gas)%Q else loss_t in
   emit (Backward batch_idx) ;;
   emit (ClipGrad batch_idx) ;;
   r <- lift (pymod (Z.of_nat batch_idx) gas) ;;
   (if r =? 0
    then emit (OptimizerStep batch_idx) ;; emit (SchedulerStep batch_idx)
    else ret tt) ;;
   let steps := steps st + 1 in
   c <- lift (compute_correct logits_t label_t label_mask th_default) ;;
   let n_correct := fst (fst c) in
   let st' := {| total_loss := (total_loss st + loss_t)%Q;
                 n_pred_total := n_pred_total st + tsum label_mask;
                 n_pred_correct := n_pred_correct st + n_correct;
                 steps := steps |} in
   q <- lift (pydiv (inject_Z steps) (inject_Z gas)) ;;
   ret (st', Qeq_bool q (inject_Z (steps_per_epoch (args self)))))%task.

(** [for batch_idx, batch in enumerate(dataloader)], line 75. *)
Fixpoint train_loop (self : Task) (loss_fn : BCEWithLogitsLoss)
    (batch_idx : nat) (dataloader : list Batch) (st : TrainState)
    : M TrainState :=
  match dataloader with
  | [] => ret st
  | batch :: rest =>
      (sb <- train_batch self loss_fn batch_idx batch st ;;
       if snd sb then ret (fst sb)
       else train_loop self loss_fn (S batch_idx) rest (fst sb))%task
  end.

(** Lines 126-130. *)
Definition train_finish (self : Task) (st : TrainState) : M (Q * Q) :=
  (let gas := gradient_accumulation_steps (args self) in
   steps <- lift (pydiv (inject_Z (steps st)) (inject_Z gas)) ;;
   total_loss <- lift (pydiv (total_loss st) steps) ;;
   accuracy <- lift (pydiv (inject_Z (n_pred_correct st))
                           (inject_Z (n_pred_total st))) ;;
   add_global_step (pyint steps) ;;
   ret (total_loss, accuracy))%task.

Definition train_init : TrainState :=
  {| total_loss := 0; n_pred_total := 0; n_pred_correct := 0; steps := 0 |}.

(** [train], lines 55-130. *)
Definition train (self : Task) (dataloader : list Batch) (kwargs : Kwargs)
    : M (Q * Q) :=
  (emit SetTrain ;;
   loss_fn <- lift (get_loss_fn (kw_loss_type kwargs) "none"
                                (kw_pos_weight kwargs)) ;;
   st <- train_loop self loss_fn 0 dataloader train_init ;;
   train_finish self st)%task.

(** One turn of the evaluation loop, lines 152-178. *)
Definition eval_batch (self : Task) (loss_fn : BCEWithLogitsLoss)
    (batch : Batch) (st : EvalState) : M EvalState :=
  (let '(src_seq_t, label_t) := batch in
   let attention_mask := tne src_seq_t (pad_token_id self) in
   let label_mask := tne label_t (ignore_index self) in
   h <- history ;;
   let logits_t := forward h src_seq_t attention_mask in
   loss_t <- lift (masked_loss loss_fn logits_t label_t label_mask) ;;
   c <- lift (compute_correct logits_t label_t label_mask th_default) ;;
   let '(_, pred_t, label_t) := c in
   ret {| e_total_loss := (e_total_loss st + loss_t)%Q;
          e_steps := e_steps st + 1;
          e_preds := e_preds st ++ [pred_t];
          e_labels := e_labels st ++ [label_t] |})%task.

Fixpoint eval_loop (self : Task) (loss_fn : BCEWithLogitsLoss)
    (dataloader : list Batch) (st : EvalState) : M EvalState :=
  match dataloader with
  | [] => ret st
  | batch :: rest =>
      (st' <- eval_batch self loss_fn batch st ;;
       eval_loop self loss_fn rest st')%task
  end.

Definition eval_init : EvalState :=
  {| e_total_loss := 0; e_steps := 0; e_preds := []; e_labels := [] |}.

(** [eval], lines 132-202. *)
Definition eval (self : Task) (dataloader : list Batch) (kwargs : Kwargs)
    : M Scores :=
  (emit SetEval ;;
   loss_fn <- lift (get_loss_fn (kw_loss_type kwargs) "none"
                                (kw_pos_weight kwargs)) ;;
   st <- eval_loop self loss_fn dataloader eval_init ;;
   total_loss <- lift (pydiv (e_total_loss st) (inject_Z (e_steps st))) ;;
   labels <- lift (np_concatenate (e_labels st)) ;;
   preds <- lift (np_concatenate (e_preds st)) ;;
   let '(prec, rec, f_score) :=
     precision_recall_fscore_support labels preds in
   let accuracy := accuracy_score labels preds in
   ret {| eval_loss := total_loss;
          eval_acc := accuracy;
          eval_prec := prec;
          eval_rec := rec;
          eval_f_score := f_score |})%task.

(** The labels of one sentence, lines 236-238: the probabilities at the
    valid positions, thresholded. *)
Definition sentence_labels (th : F) (m : list bool) (p : list F) : list Z :=
  map (threshold th) (select p m).

(** One turn of the inference loop, lines 218-239. *)
Definition inference_batch (pad_token_id ignore_index : Z) (th : F)
    (batch : Batch) (preds : list (list Z)) : M (list (list Z)) :=
  (let '(src_seq_t, token_mask) := batch in
   let attention_mask := tne src_seq_t pad_token_id in
   h <- history ;;
   let logits_t := forward h src_seq_t attention_mask in
   let pred_t := tmap sigmoid logits_t in
   let mask := tmap (fun m => negb (m =? ignore_index)) token_mask in
   if list_eq_dec Nat.eq_dec (shape mask) (shape pred_t)
   then ret (fold_left
               (fun preds mp =>
                  preds ++ [sentence_labels th (fst mp) (snd mp)])
               (combine mask pred_t) preds)
   else raise AssertionError)%task.

Fixpoint inference_loop (pad_token_id ignore_index : Z) (th : F)
    (dataloader : list Batch) (preds : list (list Z)) : M (list (list Z)) :=
  match dataloader with
  | [] => ret preds
  | batch :: rest =>
      (preds' <- inference_batch pad_token_id ignore_index th batch preds ;;
       inference_loop pad_token_id ignore_index th rest preds')%task
  end.

(** [inference], lines 204-241. *)
Definition inference (dataloader : list Batch)
    (pad_token_id ignore_index : Z) (th : F) : M (list (list Z)) :=
  (emit SetEval ;;
   inference_loop pad_token_id ignore_index th dataloader [])%task.


(** *** The epoch loop of the driver *)

(** The keyword arguments of the two calls, lines 184-191 and 201-205. *)
Definition train_kwargs (pos_weight : F) : Kwargs :=
  {| loss_type := None; kw_pos_weight := Some [pos_weight] |}.

Definition eval_kwargs : Kwargs :=
  {| loss_type := None; kw_pos_weight := None |}.

(** One turn of the epoch loop, lines 183-241.  The two epoch iterators are
    functions of the epoch; the experiment log and the checkpoint writer are
    kept as the lists of what they receive. *)
Definition run_epoch (task : Task) (ns : Namespace) (pos_weight : F)
    (train_itr eval_itr : Z -> list Batch) (epoch : Z) (d : Driver)
    (w : World) : result unit * Driver * World :=
  match train task (train_itr epoch) (train_kwargs pos_weight) w with
  | (Err e, w1) => (Err e, d, w1)
  | (Ok la, w1) =>
      let d1 := {| best_f1 := best_f1 d;
                   train_metrics := train_metrics d ++ [(epoch - 1, la)];
                   eval_metrics := eval_metrics d;
                   checkpoints := checkpoints d |} in
      match pymod epoch (ns_eval_every ns) with
      | Err e => (Err e, d1, w1)
      | Ok r =>
          if (r =? 0) || (epoch =? 1) then
            match eval task (eval_itr epoch) eval_kwargs w1 with
            | (Err e, w2) => (Err e, d1, w2)
            | (Ok scores, w2) =>
                let is_best :=
                  negb (Qle_bool (eval_f_score scores) (best_f1 d1)) in
                (Ok tt,
                 {| best_f1 := if is_best then eval_f_score scores
                               else best_f1 d1;
                    train_metrics := train_metrics d1;
                    eval_metrics := eval_metrics d1 ++ [(epoch - 1, scores)];
                    checkpoints := checkpoints d1 ++ [(epoch, is_best)] |},
                 w2)
            end
          else (Ok tt, d1, w1)
      end
  end.

(** [for epoch in range(first, first + count)] *)
Fixpoint epoch_loop (task : Task) (ns : Namespace) (pos_weight : F)
    (train_itr eval_itr : Z -> list Batch) (count : nat) (first : Z)
    (d : Driver) (w : World) : result unit * Driver * World :=
  match count with
  | O => (Ok tt, d, w)
  | S count' =>
      match run_epoch task ns pos_weight train_itr eval_itr first d w with
      | (Ok _, d', w') =>
          epoch_loop task ns pos_weight train_itr eval_itr count'
                     (first + 1) d' w'
      | failed => failed
      end
  end.

(** The driver from line 122 on: the schedule, the task and the epochs
    [1 .. epochs].  [len_train] is [len(train_epoch_gen)]. *)
Definition main_loop (ns : Namespace) (len_train pad_token_id : Z)
    (pos_weight : F) (train_itr eval_itr : Z -> list Batch) (w : World)
    : result unit * Driver * World :=
  let ns := with_batches_per_epoch ns len_train in
  match compute_warmup_steps ns with
  | Err e => (Err e, driver_init, w)
  | Ok sc =>
      epoch_loop (driver_task ns sc pad_token_id) ns pos_weight
                 train_itr eval_itr (Z.to_nat (ns_epochs ns)) 1
                 driver_init w
  end.

(** *** What an epoch is expected to do, batch by batch *)

(** The model returns one logit per token, and a batch has one label (or
    one mask entry) per token. *)
Definition model_contract : Prop :=
  forall h src attn, shape (forward h src attn) = shape src.

Definition well_shaped (b : Batch) : Prop := shape (fst b) = shape (snd b).

(** The calls of the turn of batch [i], and of the first [n] turns. *)
Definition batch_events (gas : Z) (i : nat) : list event :=
  [ZeroGrad i; Backward i; ClipGrad i] ++
  (if Z.of_nat i mod gas =? 0 then [OptimizerStep i; SchedulerStep i]
   else []).

Definition trace (gas : Z) (n : nat) : list event :=
  flat_map (batch_events gas) (seq 0 n).

(** The calls made when the model sees batch [k] of an epoch that started
    after the calls [h0]. *)
Definition history_at (gas : Z) (h0 : list event) (k : nat) : list event :=
  h0 ++ trace gas k ++ [ZeroGrad k].

Definition batch_logits (self : Task) (h : list event) (b : Batch)
    : Tensor F :=
  forward h (fst b) (tne (fst b) (pad_token_id self)).

Definition batch_mask (self : Task) (b : Batch) : Tensor Z :=
  tne (snd b) (ignore_index self).

(** The masked mean loss of a batch, before the scaling. *)
Definition batch_loss (self : Task) (loss_fn : BCEWithLogitsLoss)
    (h : list event) (b : Batch) : Q :=
  tensor_mean (map tensor_mean
    (tmap2 (fun l m => (l * inject_Z m)%Q)
       (tmap2 (bce_with_logits loss_fn) (batch_logits self h b) (snd b))
       (batch_mask self b))).

(** The loss a training turn adds to the total. *)
Definition scaled_loss (self : Task) (loss_fn : BCEWithLogitsLoss)
    (h : list event) (b : Batch) : Q :=
  let gas := gradient_accumulation_steps (args self) in
  if gas >? 1 then (batch_loss self loss_fn h b / inject_Z gas)%Q
  else batch_loss self loss_fn h b.

(** The valid labels of a batch and the correct predictions among them. *)
Definition batch_valid (self : Task) (b : Batch) : Z :=
  tsum (batch_mask self b).

Definition batch_correct (self : Task) (h : list event) (b : Batch) : Z :=
  masked_matches (batch_logits self h b) (snd b) (batch_mask self b)
                 th_default.

(** The number of batches an epoch goes through before it breaks or the
    dataloader ends, from the value of [steps] and the batches left. *)
Fixpoint run_length (gas spe : Z) (steps : Z) (len : nat) : nat :=
  match len with
  | O => O
  | S len' =>
      if Qeq_bool (inject_Z (steps + 1) / inject_Z gas) (inject_Z spe)
      then 1%nat
      else S (run_length gas spe (steps + 1) len')
  end.

Definition processed (self : Task) (dataloader : list Batch) : nat :=
  run_length (gradient_accumulation_steps (args self))
             (steps_per_epoch (args self)) 0 (length dataloader).

(** The batches an epoch goes through, each with its index. *)
Definition epoch_batches (self : Task) (dataloader : list Batch)
    : list (nat * Batch) :=
  let n := processed self dataloader in
  combine (seq 0 n) (firstn n dataloader).

Definition qsum (v : list Q) : Q := fold_left Qplus v 0%Q.
Definition zsum (v : list Z) : Z := fold_left Z.add v 0.

(** The three totals of an epoch that starts after the calls [h0]. *)
Definition epoch_loss (self : Task) (loss_fn : BCEWithLogitsLoss)
    (h0 : list event) (dataloader : list Batch) : Q :=
  let gas := gradient_accumulation_steps (args self) in
  qsum (map (fun kb => scaled_loss self loss_fn
                         (history_at gas h0 (fst kb)) (snd kb))
            (epoch_batches self dataloader)).

Definition epoch_valid (self : Task) (dataloader : list Batch) : Z :=
  zsum (map (fun kb => batch_valid self (snd kb))
            (epoch_batches self dataloader)).

Definition epoch_correct (self : Task) (h0 : list event)
    (dataloader : list Batch) : Z :=
  let gas := gradient_accumulation_steps (args self) in
  zsum (map (fun kb => batch_correct self (history_at gas h0 (fst kb))
                                     (snd kb))
            (epoch_batches self dataloader)).

(** The locals after a training turn whose forward pass saw the calls [h]. *)
Definition step_state (self : Task) (loss_fn : BCEWithLogitsLoss)
    (h : list event) (b : Batch) (st : TrainState) : TrainState :=
  {| total_loss := (total_loss st + scaled_loss self loss_fn h b)%Q;
     n_pred_total := n_pred_total st + batch_valid self b;
     n_pred_correct := n_pred_correct st + batch_correct self h b;
     steps := steps st + 1 |}.

(** The locals after the turns of the indexed batches [kbs]. *)
Definition run_state (self : Task) (loss_fn : BCEWithLogitsLoss)
    (h0 : list event) (kbs : list (nat * Batch)) (st : TrainState)
    : TrainState :=
  fold_left
    (fun st kb =>
       step_state self loss_fn
         (history_at (gradient_accumulation_steps (args self)) h0 (fst kb))
         (snd kb) st)
    kbs st.

(** The loss functor [train] and [eval] build when the kind is supported. *)
Definition built_loss (kwargs : Kwargs) : BCEWithLogitsLoss :=
  {| reduction := "none"; pos_weight := kw_pos_weight kwargs |}.

Definition supported (kwargs : Kwargs) : Prop :=
  kw_loss_type kwargs = "binary_cross_entropy"%string.

(** The world and the locals at the end of the loop of [train]. *)
Definition end_world (self : Task) (dl : list Batch) (w : World) : World :=
  {| log := log w ++ SetTrain ::
            trace (gradient_accumulation_steps (args self))
                  (processed self dl);
     global_step := global_step w |}.

Definition end_state (self : Task) (dl : list Batch) (kwargs : Kwargs)
    (w : World) : TrainState :=
  run_state self (built_loss kwargs) (log w ++ [SetTrain])
            (epoch_batches self dl) train_init.

(** Every label of the batch is the ignore index. *)
Definition all_ignored (self : Task) (b : Batch) : Prop :=
  Forall (Forall (fun y => y = ignore_index self)) (snd b).

(** *** What inference and evaluation are expected to do, batch by batch *)

(** The boolean mask and the probabilities of an inference batch, when the
    model has seen the calls [h]. *)
Definition infer_mask (ignore_index : Z) (b : Batch) : Tensor bool :=
  tmap (fun m => negb (m =? ignore_index)) (snd b).

Definition infer_logits (pad_token_id : Z) (h : list event) (b : Batch)
    : Tensor F :=
  forward h (fst b) (tne (fst b) pad_token_id).

Definition infer_probs (pad_token_id : Z) (h : list event) (b : Batch)
    : Tensor F :=
  tmap sigmoid (infer_logits pad_token_id h b).

(** The condition of the assertion of line 232. *)
Definition assertion_holds (pad_token_id ignore_index : Z) (h : list event)
    (b : Batch) : Prop :=
  shape (infer_mask ignore_index b) = shape (infer_probs pad_token_id h b).

(** The label lists of the sentences of a batch, in the order of its rows. *)
Definition batch_sentences (pad_token_id ignore_index : Z) (th : F)
    (h : list event) (b : Batch) : list (list Z) :=
  map (fun mp => sentence_labels th (fst mp) (snd mp))
      (combine (infer_mask ignore_index b) (infer_probs pad_token_id h b)).

(** The logits at the valid positions of each sentence of a batch. *)
Definition batch_valid_logits (pad_token_id ignore_index : Z)
    (h : list event) (b : Batch) : list (list F) :=
  map (fun ml => select (snd ml) (fst ml))
      (combine (infer_mask ignore_index b) (infer_logits pad_token_id h b)).

(** The number of valid positions of a row of a token mask. *)
Definition valid_count (ignore_index : Z) (row : list Z) : nat :=
  length (filter (fun m => negb (m =? ignore_index)) row).

(** The filtered prediction and label vectors of an evaluation batch. *)
Definition batch_preds (self : Task) (h : list event) (b : Batch) : list Z :=
  select (map (fun l => threshold th_default (sigmoid l))
              (flatten (batch_logits self h b)))
         (map to_bool (flatten (batch_mask self b))).

Definition batch_labels (self : Task) (b : Batch) : list Z :=
  select (flatten (snd b)) (map to_bool (flatten (batch_mask self b))).


(** ** Properties *)

(** *** Tensors and selection *)

Lemma length_flatten A (t : Tensor A) :
  length (flatten t) = list_sum (shape t).
Proof.
  unfold flatten, shape.
  induction t as [|r t IH]; simpl; [reflexivity|].
  rewrite length_app, IH. reflexivity.
Qed.

Lemma shape_length_flatten A B (a : Tensor A) (b : Tensor B) :
  shape a = shape b -> length (flatten a) = length (flatten b).
Proof. intros H. rewrite !length_flatten, H. reflexivity. Qed.

Lemma shape_tmap A B (f : A -> B) (t : Tensor A) : shape (tmap f t) = shape t.
Proof.
  unfold shape, tmap. rewrite map_map.
  apply map_ext. intros r. apply length_map.
Qed.

Lemma flatten_tmap A B (f : A -> B) (t : Tensor A) :
  flatten (tmap f t) = map f (flatten t).
Proof. unfold flatten, tmap. symmetry. apply concat_map. Qed.

Lemma bool_index_same_length A (xs : list A) (m : list bool) :
  length xs = length m -> bool_index xs m = Ok (select xs m).
Proof.
  intros H. unfold bool_index.
  rewrite (proj2 (Nat.eqb_eq _ _) H). reflexivity.
Qed.

Lemma select_map A B (f : A -> B) (xs : list A) (m : list bool) :
  select (map f xs) m = map f (select xs m).
Proof.
  revert m. induction xs as [|x xs IH]; intros [|b m]; simpl; try reflexivity.
  destruct b; simpl; rewrite IH; reflexivity.
Qed.

Lemma length_select_count A (xs : list A) (m : list bool) :
  length xs = length m ->
  length (select xs m) = length (filter (fun b => b) m).
Proof.
  revert m. induction xs as [|x xs IH]; intros [|b m] H; simpl in *;
    try reflexivity; try discriminate.
  injection H as H. destruct b; simpl; rewrite (IH _ H); reflexivity.
Qed.

Lemma length_filter_shift (f : nat -> bool) (n : nat) :
  length (filter f (seq 1 n)) = length (filter (fun i => f (S i)) (seq 0 n)).
Proof.
  rewrite <- seq_shift.
  induction (seq 0 n) as [|i l IH]; simpl; [reflexivity|].
  destruct (f (S i)); simpl; rewrite IH; reflexivity.
Qed.

(** *** [compute_correct] *)

(** The returned vectors and count when the three tensors have one size. *)
Lemma compute_correct_ok (logits : Tensor F) (labels mask : Tensor Z)
    (th : F) :
  shape logits = shape mask -> shape labels = shape mask ->
  compute_correct logits labels mask th =
  let m := map to_bool (flatten mask) in
  let preds := select (map (fun l => threshold th (sigmoid l)) (flatten logits)) m in
  let labs := select (flatten labels) m in
  Ok (count_true (vec_eq preds labs), preds, labs).
Proof.
  intros Hl Hy. unfold compute_correct.
  rewrite flatten_tmap.
  rewrite bool_index_same_length
    by (rewrite !length_map; apply shape_length_flatten, Hl).
  simpl rbind.
  rewrite bool_index_same_length
    by (rewrite length_map; apply shape_length_flatten, Hy).
  reflexivity.
Qed.

Lemma count_select_hits (th : F) (mask : list Z) :
  forall (logits : list F) (labels : list Z),
  length logits = length mask -> length labels = length mask ->
  count_true (vec_eq
    (select (map (fun l => threshold th (sigmoid l)) logits) (map to_bool mask))
    (select labels (map to_bool mask))) =
  Z.of_nat (length (filter (hit_at logits labels mask th)
                           (seq 0 (length mask)))).
Proof.
  unfold count_true.
  induction mask as [|m mask IH]; intros [|l logits] [|y labels] Hl Hy;
    simpl in Hl, Hy; try discriminate.
  - reflexivity.
  - injection Hl as Hl. injection Hy as Hy.
    specialize (IH logits labels Hl Hy).
    apply Nat2Z.inj in IH. f_equal.
    assert (Hsh :
      length (filter (hit_at (l :: logits) (y :: labels) (m :: mask) th)
                     (seq 1 (length mask))) =
      length (filter (hit_at logits labels mask th) (seq 0 (length mask))))
      by (rewrite length_filter_shift; reflexivity).
    cbn [length seq filter map select].
    change (hit_at (l :: logits) (y :: labels) (m :: mask) th 0)
      with (to_bool m && (threshold th (sigmoid l) =? y)).
    destruct (to_bool m); cbn [andb vec_eq filter].
    + destruct (threshold th (sigmoid l) =? y); cbn [length];
        rewrite Hsh, IH; reflexivity.
    + rewrite Hsh, IH. reflexivity.
Qed.

Lemma compute_correct_count (logits : Tensor F) (labels mask : Tensor Z)
    (th : F) :
  shape logits = shape mask -> shape labels = shape mask ->
  exists preds labs,
    compute_correct logits labels mask th =
    Ok (masked_matches logits labels mask th, preds, labs).
Proof.
  intros Hl Hy. rewrite (compute_correct_ok logits labels mask th Hl Hy). cbv zeta.
  unfold masked_matches.
  rewrite count_select_hits by (apply shape_length_flatten; assumption).
  eauto.
Qed.

Lemma masked_matches_agree (logits logits' : Tensor F)
    (labels labels' mask : Tensor Z) (th : F) :
  agree_on_mask mask logits logits' labels labels' ->
  masked_matches logits' labels' mask th = masked_matches logits labels mask th.
Proof.
  intros Hag. unfold masked_matches. do 2 f_equal.
  apply filter_ext_in. intros i Hi. apply in_seq in Hi.
  unfold hit_at.
  destruct (nth_error (flatten mask) i) as [m|] eqn:Hm; [|reflexivity].
  destruct (to_bool m) eqn:Hb.
  - destruct (Hag i m Hm Hb) as [-> ->]. reflexivity.
  - cbn [andb].
    destruct (nth_error (flatten logits') i), (nth_error (flatten labels') i),
      (nth_error (flatten logits) i), (nth_error (flatten labels) i);
      reflexivity.
Qed.

(** C1: when logits, labels and mask have one shape, [compute_correct]
    returns as its count the number of positions at which the mask is true
    and the thresholded sigmoid of the logit equals the label; and an input
    that agrees with it wherever the mask is true (same mask) gets the same
    count, so masked-out logits and labels never matter. *)
Theorem compute_correct_counts_masked_matches
    (logits : Tensor F) (labels mask : Tensor Z) (th : F) :
  shape logits = shape mask -> shape labels = shape mask ->
  (exists preds labs,
     compute_correct logits labels mask th =
     Ok (masked_matches logits labels mask th, preds, labs)) /\
  (forall (logits' : Tensor F) (labels' : Tensor Z),
     shape logits' = shape mask -> shape labels' = shape mask ->
     agree_on_mask mask logits logits' labels labels' ->
     exists preds' labs',
       compute_correct logits' labels' mask th =
       Ok (masked_matches logits labels mask th, preds', labs')).
Proof.
  intros Hl Hy. split.
  - apply compute_correct_count; assumption.
  - intros logits' labels' Hl' Hy' Hag.
    rewrite <- (masked_matches_agree logits logits' labels labels' mask th Hag).
    apply compute_correct_count; assumption.
Qed.

(** *** Python arithmetic *)

Lemma Qeq_bool_inject_Z_0 (z : Z) : z <> 0 -> Qeq_bool (inject_Z z) 0 = false.
Proof.
  intros Hz. destruct (Qeq_bool (inject_Z z) 0) eqn:E; [|reflexivity].
  apply Qeq_bool_iff in E. unfold Qeq in E. simpl in E. lia.
Qed.

Lemma pydiv_nonzero (a : Q) (b : Z) :
  b <> 0 -> pydiv a (inject_Z b) = Ok (a / inject_Z b)%Q.
Proof. intros Hb. unfold pydiv. rewrite Qeq_bool_inject_Z_0; auto. Qed.

Lemma pymod_nonzero (a b : Z) : b <> 0 -> pymod a b = Ok (a mod b).
Proof.
  intros Hb. unfold pymod. rewrite (proj2 (Z.eqb_neq _ _) Hb). reflexivity.
Qed.

(** *** One training turn *)

Lemma compute_correct_fst (logits : Tensor F) (labels mask : Tensor Z)
    (th : F) :
  shape logits = shape mask -> shape labels = shape mask ->
  exists c, compute_correct logits labels mask th = Ok c /\
            fst (fst c) = masked_matches logits labels mask th.
Proof.
  intros Hl Hy.
  destruct (compute_correct_count logits labels mask th Hl Hy)
    as (preds & labs & E).
  eexists. split; [exact E|reflexivity].
Qed.

Lemma shape_tne (t : Tensor Z) (v : Z) : shape (tne t v) = shape t.
Proof. apply shape_tmap. Qed.

Lemma train_batch_ok (self : Task) (loss_fn : BCEWithLogitsLoss)
    (i : nat) (b : Batch) (st : TrainState) (w : World) :
  model_contract -> well_shaped b ->
  gradient_accumulation_steps (args self) <> 0 ->
  train_batch self loss_fn i b st w =
  (Ok (step_state self loss_fn (log w ++ [ZeroGrad i]) b st,
       Qeq_bool (inject_Z (steps st + 1) /
                 inject_Z (gradient_accumulation_steps (args self)))
                (inject_Z (steps_per_epoch (args self)))),
   {| log := log w ++ batch_events (gradient_accumulation_steps (args self)) i;
      global_step := global_step w |}).
Proof.
  intros Hm Hb Hg. destruct b as [src lab]. unfold well_shaped in Hb.
  simpl in Hb.
  assert (Hlog : shape (forward (log w ++ [ZeroGrad i]) src
                          (tne src (pad_token_id self))) = shape lab)
    by (rewrite Hm; exact Hb).
  destruct (compute_correct_fst
              (forward (log w ++ [ZeroGrad i]) src (tne src (pad_token_id self)))
              lab (tne lab (ignore_index self)) th_default)
    as (c & Ec & Hc).
  { rewrite shape_tne. exact Hlog. }
  { rewrite shape_tne. reflexivity. }
  unfold train_batch, bind, emit, history, lift, ret. cbn [log global_step].
  unfold masked_loss, apply_loss.
  destruct (list_eq_dec Nat.eq_dec _ _) as [_|Hne]; [|contradiction].
  cbn [rbind].
  rewrite (pymod_nonzero _ _ Hg).
  rewrite Ec.
  rewrite (pydiv_nonzero _ _ Hg).
  unfold step_state, scaled_loss, batch_loss, batch_correct, batch_valid,
    batch_logits, batch_mask, batch_events. cbn [fst snd].
  rewrite Hc.
  destruct (Z.of_nat i mod gradient_accumulation_steps (args self) =? 0);
    cbn [log global_step]; rewrite <- ?app_assoc; reflexivity.
Qed.

(** *** The training loop *)

Lemma trace_succ (gas : Z) (n : nat) :
  trace gas (S n) = trace gas n ++ batch_events gas n.
Proof.
  unfold trace. rewrite seq_S, flat_map_app. simpl flat_map.
  rewrite app_nil_r. reflexivity.
Qed.

Lemma run_length_le (gas spe : Z) (len : nat) :
  forall s, (run_length gas spe s len <= len)%nat.
Proof.
  induction len as [|len IH]; intros s; simpl; [lia|].
  destruct (Qeq_bool _ _); [lia|]. specialize (IH (s + 1)). lia.
Qed.

Lemma train_loop_run (self : Task) (loss_fn : BCEWithLogitsLoss)
    (h0 : list event) :
  let gas := gradient_accumulation_steps (args self) in
  model_contract -> gas <> 0 ->
  forall (dl : list Batch) (i : nat) (st : TrainState) (w : World),
  Forall well_shaped dl ->
  log w = h0 ++ trace gas i ->
  train_loop self loss_fn i dl st w =
  (Ok (run_state self loss_fn h0
         (combine (seq i (run_length gas (steps_per_epoch (args self))
                                     (steps st) (length dl)))
                  (firstn (run_length gas (steps_per_epoch (args self))
                                      (steps st) (length dl)) dl))
         st),
   {| log := h0 ++ trace gas
               (i + run_length gas (steps_per_epoch (args self))
                               (steps st) (length dl));
      global_step := global_step w |}).
Proof.
  intros gas Hm Hg. induction dl as [|b dl IH]; intros i st w Hws Hlog.
  - simpl. unfold ret. rewrite Nat.add_0_r, <- Hlog.
    destruct w; reflexivity.
  - inversion Hws as [|? ? Hb Hrest]; subst.
    cbn [train_loop]. unfold bind.
    rewrite (train_batch_ok self loss_fn i b st w Hm Hb Hg).
    cbn [fst snd length run_length]. fold gas.
    destruct (Qeq_bool (inject_Z (steps st + 1) / inject_Z gas)
                       (inject_Z (steps_per_epoch (args self)))) eqn:Estop.
    + unfold ret. cbn [seq firstn combine run_state fold_left fst snd].
      unfold history_at. fold gas.
      rewrite Hlog, Nat.add_1_r, trace_succ, <- !app_assoc. reflexivity.
    + rewrite (IH (S i)
                 (step_state self loss_fn (log w ++ [ZeroGrad i]) b st)
                 {| log := log w ++ batch_events gas i;
                    global_step := global_step w |} Hrest)
        by (cbn [log]; rewrite Hlog, trace_succ, <- app_assoc; reflexivity).
      cbn [steps step_state global_step].
      cbn [seq firstn combine run_state fold_left fst snd].
      unfold history_at. fold gas.
      rewrite Hlog, Nat.add_succ_r, <- !app_assoc. reflexivity.
Qed.

Lemma run_state_steps (self : Task) (loss_fn : BCEWithLogitsLoss)
    (h0 : list event) (kbs : list (nat * Batch)) :
  forall st, steps (run_state self loss_fn h0 kbs st) =
             steps st + Z.of_nat (length kbs).
Proof.
  unfold run_state. induction kbs as [|kb kbs IH]; intros st.
  - simpl. lia.
  - cbn [fold_left length]. rewrite IH. cbn [steps step_state]. lia.
Qed.

Lemma run_state_total_loss (self : Task) (loss_fn : BCEWithLogitsLoss)
    (h0 : list event) (kbs : list (nat * Batch)) :
  forall st, total_loss (run_state self loss_fn h0 kbs st) =
    fold_left Qplus
      (map (fun kb => scaled_loss self loss_fn
              (history_at (gradient_accumulation_steps (args self)) h0 (fst kb))
              (snd kb)) kbs)
      (total_loss st).
Proof.
  unfold run_state. induction kbs as [|kb kbs IH]; intros st.
  - reflexivity.
  - cbn [fold_left map]. rewrite IH. reflexivity.
Qed.

Lemma run_state_n_pred_total (self : Task) (loss_fn : BCEWithLogitsLoss)
    (h0 : list event) (kbs : list (nat * Batch)) :
  forall st, n_pred_total (run_state self loss_fn h0 kbs st) =
    fold_left Z.add (map (fun kb => batch_valid self (snd kb)) kbs)
              (n_pred_total st).
Proof.
  unfold run_state. induction kbs as [|kb kbs IH]; intros st.
  - reflexivity.
  - cbn [fold_left map]. rewrite IH. reflexivity.
Qed.

Lemma run_state_n_pred_correct (self : Task) (loss_fn : BCEWithLogitsLoss)
    (h0 : list event) (kbs : list (nat * Batch)) :
  forall st, n_pred_correct (run_state self loss_fn h0 kbs st) =
    fold_left Z.add
      (map (fun kb => batch_correct self
              (history_at (gradient_accumulation_steps (args self)) h0 (fst kb))
              (snd kb)) kbs)
      (n_pred_correct st).
Proof.
  unfold run_state. induction kbs as [|kb kbs IH]; intros st.
  - reflexivity.
  - cbn [fold_left map]. rewrite IH. reflexivity.
Qed.

Lemma length_epoch_batches (self : Task) (dl : list Batch) :
  length (epoch_batches self dl) = processed self dl.
Proof.
  unfold epoch_batches. rewrite length_combine, length_seq, length_firstn.
  pose proof (run_length_le (gradient_accumulation_steps (args self))
                (steps_per_epoch (args self)) (length dl) 0) as H.
  unfold processed in *. lia.
Qed.

Lemma get_loss_fn_supported (kwargs : Kwargs) :
  supported kwargs ->
  get_loss_fn (kw_loss_type kwargs) "none" (kw_pos_weight kwargs) =
  Ok (built_loss kwargs).
Proof. unfold supported. intros ->. reflexivity. Qed.

Lemma train_run (self : Task) (dl : list Batch) (kwargs : Kwargs)
    (w : World) :
  model_contract -> Forall well_shaped dl ->
  gradient_accumulation_steps (args self) <> 0 ->
  supported kwargs ->
  train self dl kwargs w =
  train_finish self (end_state self dl kwargs w) (end_world self dl w).
Proof.
  intros Hm Hws Hg Hs. unfold train, bind at 1 2. unfold emit, lift at 1.
  rewrite (get_loss_fn_supported kwargs Hs). unfold bind.
  rewrite (train_loop_run self (built_loss kwargs) (log w ++ [SetTrain])
             Hm Hg dl 0%nat train_init _ Hws)
    by (cbn [log]; unfold trace; simpl; rewrite app_nil_r; reflexivity).
  cbn [steps train_init global_step Nat.add].
  unfold end_state, end_world, epoch_batches, processed.
  rewrite <- app_assoc. reflexivity.
Qed.

(** *** The calls of an epoch *)

Lemma optimizer_steps_trace (gas : Z) (n : nat) :
  optimizer_steps (trace gas n) =
  filter (fun i => Z.of_nat i mod gas =? 0) (seq 0 n).
Proof.
  induction n as [|n IH]; [reflexivity|].
  rewrite trace_succ, seq_S, filter_app. unfold optimizer_steps in *.
  rewrite flat_map_app, IH. f_equal.
  unfold batch_events. simpl.
  destruct (Z.of_nat n mod gas =? 0); reflexivity.
Qed.

Lemma scheduler_steps_trace (gas : Z) (n : nat) :
  scheduler_steps (trace gas n) =
  filter (fun i => Z.of_nat i mod gas =? 0) (seq 0 n).
Proof.
  induction n as [|n IH]; [reflexivity|].
  rewrite trace_succ, seq_S, filter_app. unfold scheduler_steps in *.
  rewrite flat_map_app, IH. f_equal.
  unfold batch_events. simpl.
  destruct (Z.of_nat n mod gas =? 0); reflexivity.
Qed.

Lemma batches_entered_trace (gas : Z) (n : nat) :
  batches_entered (trace gas n) = seq 0 n.
Proof.
  induction n as [|n IH]; [reflexivity|].
  rewrite trace_succ, seq_S. unfold batches_entered in *.
  rewrite flat_map_app, IH. f_equal.
  unfold batch_events. simpl.
  destruct (Z.of_nat n mod gas =? 0); reflexivity.
Qed.

Lemma train_finish_log (self : Task) (st : TrainState) (w : World) :
  log (snd (train_finish self st w)) = log w.
Proof.
  unfold train_finish, bind, lift, add_global_step, ret.
  destruct (pydiv (inject_Z (steps st)) _) as [q|e]; [|reflexivity].
  destruct (pydiv (total_loss st) q) as [l|e]; [|reflexivity].
  destruct (pydiv (inject_Z (n_pred_correct st)) _) as [a|e]; reflexivity.
Qed.

Lemma processed_le (self : Task) (dl : list Batch) :
  (processed self dl <= length dl)%nat.
Proof. apply run_length_le. Qed.

Lemma processed_pos (self : Task) (dl : list Batch) :
  dl <> [] -> (1 <= processed self dl)%nat.
Proof.
  unfold processed. destruct dl as [|b dl]; [congruence|]. intros _.
  cbn [length run_length]. destruct (Qeq_bool _ _); lia.
Qed.

(** C3, amended: for a nonzero [gradient_accumulation_steps], the optimizer
    and the scheduler are stepped in an epoch exactly at the batches gone
    through whose zero-based index is divisible by it, so the first batch
    always triggers a step of both. *)
Theorem optimizer_stepped_on_raw_batch_index
    (self : Task) (dl : list Batch) (kwargs : Kwargs) (w : World) :
  let gas := gradient_accumulation_steps (args self) in
  model_contract -> Forall well_shaped dl -> gas <> 0 -> supported kwargs ->
  exists (n : nat) (new : list event),
    (n <= length dl)%nat /\
    log (snd (train self dl kwargs w)) = log w ++ SetTrain :: new /\
    batches_entered new = seq 0 n /\
    optimizer_steps new =
      filter (fun i => Z.of_nat i mod gas =? 0) (seq 0 n) /\
    scheduler_steps new =
      filter (fun i => Z.of_nat i mod gas =? 0) (seq 0 n) /\
    (dl <> [] ->
     In 0%nat (optimizer_steps new) /\ In 0%nat (scheduler_steps new)).
Proof.
  intros gas Hm Hws Hg Hs.
  exists (processed self dl), (trace gas (processed self dl)).
  rewrite (train_run self dl kwargs w Hm Hws Hg Hs), train_finish_log.
  rewrite optimizer_steps_trace, scheduler_steps_trace, batches_entered_trace.
  split; [apply processed_le|].
  do 4 (split; [reflexivity|]).
  intros Hne. pose proof (processed_pos self dl Hne) as Hpos.
  assert (H0 : In 0%nat (filter (fun i => Z.of_nat i mod gas =? 0)
                                (seq 0 (processed self dl)))).
  { apply filter_In. split.
    - apply in_seq. lia.
    - rewrite Z.mod_0_l by exact Hg. reflexivity. }
  split; exact H0.
Qed.

(** *** The early stop *)

Lemma stop_test_gas_1 (s spe : Z) :
  Qeq_bool (inject_Z s / inject_Z 1) (inject_Z spe) = (s =? spe).
Proof.
  destruct (s =? spe) eqn:E.
  - apply Z.eqb_eq in E. subst. apply Qeq_bool_iff.
    unfold Qeq. simpl. lia.
  - apply Z.eqb_neq in E.
    destruct (Qeq_bool _ _) eqn:E'; [|reflexivity].
    apply Qeq_bool_iff in E'. unfold Qeq in E'. simpl in E'. lia.
Qed.

Lemma run_length_gas_1 (spe : Z) (len : nat) :
  forall s, s < spe -> spe <= s + Z.of_nat len ->
  run_length 1 spe s len = Z.to_nat (spe - s).
Proof.
  induction len as [|len IH]; intros s Hlt Hle.
  - lia.
  - cbn [run_length]. rewrite stop_test_gas_1.
    destruct (s + 1 =? spe) eqn:E.
    + apply Z.eqb_eq in E. subst. replace (s + 1 - s) with 1 by lia.
      reflexivity.
    + apply Z.eqb_neq in E. rewrite IH by lia.
      replace (spe - s) with (Z.succ (spe - (s + 1))) by lia.
      rewrite Z2Nat.inj_succ by lia. reflexivity.
Qed.

(** C5, amended: with [gradient_accumulation_steps = 1] and
    [steps_per_epoch = N] for an N of at least 1, on a dataloader of at
    least N batches, the training loop goes through exactly the first N
    batches, whatever the length of the dataloader. *)
Theorem epoch_stops_after_steps_per_epoch_batches
    (self : Task) (dl : list Batch) (kwargs : Kwargs) (w : World) :
  model_contract -> Forall well_shaped dl -> supported kwargs ->
  gradient_accumulation_steps (args self) = 1 ->
  1 <= steps_per_epoch (args self) ->
  steps_per_epoch (args self) <= Z.of_nat (length dl) ->
  exists new : list event,
    log (snd (train self dl kwargs w)) = log w ++ SetTrain :: new /\
    batches_entered new = seq 0 (Z.to_nat (steps_per_epoch (args self))).
Proof.
  intros Hm Hws Hs Hg HN Hlen.
  assert (Hg0 : gradient_accumulation_steps (args self) <> 0) by lia.
  exists (trace (gradient_accumulation_steps (args self)) (processed self dl)).
  rewrite (train_run self dl kwargs w Hm Hws Hg0 Hs), train_finish_log.
  split; [reflexivity|].
  rewrite batches_entered_trace. f_equal.
  unfold processed. rewrite Hg, run_length_gas_1 by lia.
  f_equal. lia.
Qed.

(** *** The end of [train] *)

Lemma Qdiv_inject_Z_nonzero (a b : Z) :
  a <> 0 -> b <> 0 -> Qeq_bool (inject_Z a / inject_Z b) 0 = false.
Proof.
  intros Ha Hb. destruct (Qeq_bool _ _) eqn:E; [|reflexivity].
  apply Qeq_bool_iff in E. exfalso.
  assert (Hb' : ~ inject_Z b == 0)
    by (unfold Qeq; simpl; lia).
  pose proof (Qmult_div_r (inject_Z a) (inject_Z b) Hb') as Hm.
  rewrite E in Hm. unfold Qeq in Hm. simpl in Hm. lia.
Qed.

Lemma pyint_div (a b : Z) :
  b <> 0 -> pyint (inject_Z a / inject_Z b) = Z.quot a b.
Proof.
  intros Hb. unfold pyint, Qdiv, Qinv, Qmult, inject_Z.
  destruct b as [|p|p]; [congruence| |]; cbn [Qnum Qden].
  - rewrite Z.mul_1_r. reflexivity.
  - change (Z.neg 1) with (- (1)). rewrite Z.mul_opp_r, Z.mul_1_r.
    change (Z.neg p) with (- Z.pos p).
    rewrite Z.quot_opp_l, Z.quot_opp_r by lia. reflexivity.
Qed.

Lemma train_finish_ok (self : Task) (st : TrainState) (w : World) :
  let gas := gradient_accumulation_steps (args self) in
  gas <> 0 -> steps st <> 0 -> n_pred_total st <> 0 ->
  train_finish self st w =
  (Ok ((total_loss st / (inject_Z (steps st) / inject_Z gas))%Q,
       (inject_Z (n_pred_correct st) / inject_Z (n_pred_total st))%Q),
   {| log := log w;
      global_step := global_step w + Z.quot (steps st) gas |}).
Proof.
  intros gas Hg Hs Hn. unfold train_finish, bind, lift, add_global_step, ret.
  fold gas. rewrite (pydiv_nonzero _ _ Hg).
  unfold pydiv at 1. rewrite (Qdiv_inject_Z_nonzero _ _ Hs Hg).
  rewrite (pydiv_nonzero _ _ Hn), (pyint_div _ _ Hg). reflexivity.
Qed.

Lemma end_state_steps (self : Task) (dl : list Batch) (kwargs : Kwargs)
    (w : World) :
  steps (end_state self dl kwargs w) = Z.of_nat (processed self dl).
Proof.
  unfold end_state. rewrite run_state_steps, length_epoch_batches.
  reflexivity.
Qed.

Lemma end_state_total_loss (self : Task) (dl : list Batch) (kwargs : Kwargs)
    (w : World) :
  total_loss (end_state self dl kwargs w) =
  epoch_loss self (built_loss kwargs) (log w ++ [SetTrain]) dl.
Proof. unfold end_state. rewrite run_state_total_loss. reflexivity. Qed.

Lemma end_state_n_pred_total (self : Task) (dl : list Batch)
    (kwargs : Kwargs) (w : World) :
  n_pred_total (end_state self dl kwargs w) = epoch_valid self dl.
Proof. unfold end_state. rewrite run_state_n_pred_total. reflexivity. Qed.

Lemma end_state_n_pred_correct (self : Task) (dl : list Batch)
    (kwargs : Kwargs) (w : World) :
  n_pred_correct (end_state self dl kwargs w) =
  epoch_correct self (log w ++ [SetTrain]) dl.
Proof. unfold end_state. rewrite run_state_n_pred_correct. reflexivity. Qed.

(** The multiples of [gas] below a multiple of [gas]. *)
Lemma filter_none A (P : A -> bool) (l : list A) :
  (forall x, In x l -> P x = false) -> filter P l = [].
Proof.
  induction l as [|x l IH]; intros H; [reflexivity|].
  simpl. rewrite (H x (or_introl eq_refl)).
  apply IH. intros y Hy. apply H. right. exact Hy.
Qed.

Lemma count_multiples (gas : Z) (q : nat) :
  0 < gas ->
  length (filter (fun i => Z.of_nat i mod gas =? 0)
                 (seq 0 (q * Z.to_nat gas))) = q.
Proof.
  intros Hg. induction q as [|q IH]; [reflexivity|].
  replace (S q * Z.to_nat gas)%nat
    with (q * Z.to_nat gas + Z.to_nat gas)%nat by lia.
  rewrite seq_app, filter_app, length_app, IH. cbn [Nat.add].
  destruct (Z.to_nat gas) as [|g] eqn:Eg; [lia|].
  cbn [seq filter].
  assert (H0 : (Z.of_nat (q * S g) mod gas =? 0) = true).
  { apply Z.eqb_eq. rewrite Nat2Z.inj_mul, <- Eg, Z2Nat.id by lia.
    apply Z.mod_mul. lia. }
  rewrite H0. cbn [length]. rewrite filter_none; [simpl; lia|].
  intros i Hi. apply in_seq in Hi. apply Z.eqb_neq.
  replace (Z.of_nat i)
    with ((Z.of_nat i - Z.of_nat q * gas) + Z.of_nat q * gas) by lia.
  rewrite Z.mod_add by lia.
  rewrite Z.mod_small; nia.
Qed.

(** C4, amended: for a nonzero [gradient_accumulation_steps], an epoch that
    goes through at least one batch and sees at least one valid label
    returns the accumulated per-batch loss divided by the number of steps
    (batches gone through over [gradient_accumulation_steps]) and the
    correct predictions over the valid labels, and advances [global_step] by
    the integer part of that number of steps; the advance is the number of
    optimizer steps of the epoch when [gradient_accumulation_steps] is
    positive and divides the number of batches gone through. *)
Theorem train_returns_mean_loss_and_accuracy
    (self : Task) (dl : list Batch) (kwargs : Kwargs) (w : World) :
  let gas := gradient_accumulation_steps (args self) in
  let n := Z.of_nat (processed self dl) in
  let h0 := log w ++ [SetTrain] in
  model_contract -> Forall well_shaped dl -> gas <> 0 -> supported kwargs ->
  dl <> [] -> epoch_valid self dl <> 0 ->
  train self dl kwargs w =
  (Ok ((epoch_loss self (built_loss kwargs) h0 dl /
        (inject_Z n / inject_Z gas))%Q,
       (inject_Z (epoch_correct self h0 dl) /
        inject_Z (epoch_valid self dl))%Q),
   {| log := log w ++ SetTrain :: trace gas (processed self dl);
      global_step := global_step w + pyint (inject_Z n / inject_Z gas) |})
  /\
  (0 < gas -> (gas | n) ->
   pyint (inject_Z n / inject_Z gas) =
   Z.of_nat (length (optimizer_steps (trace gas (processed self dl))))).
Proof.
  intros gas n h0 Hm Hws Hg Hs Hne Hv. split.
  - rewrite (train_run self dl kwargs w Hm Hws Hg Hs).
    pose proof (processed_pos self dl Hne) as Hpos.
    rewrite train_finish_ok.
    + rewrite end_state_steps, end_state_total_loss, end_state_n_pred_total,
        end_state_n_pred_correct.
      rewrite (pyint_div _ _ Hg). reflexivity.
    + exact Hg.
    + rewrite end_state_steps. lia.
    + rewrite end_state_n_pred_total. exact Hv.
  - intros Hpos [q Hq].
    rewrite (pyint_div _ _ Hg), optimizer_steps_trace.
    assert (Hq0 : 0 <= q) by (subst n; nia).
    assert (En : processed self dl = (Z.to_nat q * Z.to_nat gas)%nat)
      by (subst n; nia).
    rewrite En, (count_multiples _ _ Hpos), Z2Nat.id by exact Hq0.
    rewrite Hq. apply Z.quot_mul. exact Hg.
Qed.

(** *** Division by zero at the end of [train] *)

Lemma tsum_all_ignored (t : Tensor Z) (v : Z) :
  Forall (Forall (fun y => y = v)) t -> tsum (tne t v) = 0.
Proof.
  intros H. unfold tsum, tne. rewrite flatten_tmap. unfold flatten.
  induction H as [|r t Hr _ IH]; [reflexivity|].
  cbn [concat]. rewrite map_app, fold_right_app, IH.
  clear IH. induction Hr as [|y r Hy _ IHr]; [reflexivity|].
  cbn [map fold_right]. rewrite IHr, Hy, Z.eqb_refl. reflexivity.
Qed.

Lemma fold_left_add_zeros A (f : A -> Z) (l : list A) :
  (forall x, In x l -> f x = 0) ->
  forall a, fold_left Z.add (map f l) a = a.
Proof.
  induction l as [|x l IH]; intros H a; [reflexivity|].
  cbn [map fold_left]. rewrite (H x (or_introl eq_refl)), Z.add_0_r.
  apply IH. intros y Hy. apply H. right. exact Hy.
Qed.

Lemma epoch_batches_in (self : Task) (dl : list Batch) (kb : nat * Batch) :
  In kb (epoch_batches self dl) -> In (snd kb) dl.
Proof.
  unfold epoch_batches. destruct kb as [k b]. intros H.
  apply in_combine_r in H. cbn [snd].
  rewrite <- (firstn_skipn (processed self dl) dl).
  apply in_or_app. left. exact H.
Qed.

Lemma epoch_valid_all_ignored (self : Task) (dl : list Batch) :
  Forall (all_ignored self) dl -> epoch_valid self dl = 0.
Proof.
  intros H. unfold epoch_valid, zsum. apply fold_left_add_zeros.
  intros kb Hkb. apply epoch_batches_in in Hkb.
  rewrite Forall_forall in H. unfold batch_valid, batch_mask.
  apply tsum_all_ignored. apply (H _ Hkb).
Qed.

(** C9: on a dataloader that yields no batch, [train] returns nothing: the
    loop leaves [steps] at zero and the divisions that follow raise
    [ZeroDivisionError]; and on batches whose labels all are the ignore
    index, the loop and the division of the loss total go through and the
    division of the correct count by the zero total of valid labels raises
    [ZeroDivisionError]. *)
Theorem train_divides_by_zero
    (self : Task) (kwargs : Kwargs) (w : World) :
  let gas := gradient_accumulation_steps (args self) in
  supported kwargs ->
  (exists (st : TrainState) (w' : World),
     train_loop self (built_loss kwargs) 0 [] train_init
                {| log := log w ++ [SetTrain];
                   global_step := global_step w |} = (Ok st, w') /\
     steps st = 0 /\
     train_finish self st w' = (Err ZeroDivisionError, w') /\
     train self [] kwargs w = (Err ZeroDivisionError, w') /\
     global_step w' = global_step w) /\
  (forall dl : list Batch,
     model_contract -> Forall well_shaped dl -> gas <> 0 -> dl <> [] ->
     Forall (all_ignored self) dl ->
     let st := end_state self dl kwargs w in
     steps st <> 0 /\ n_pred_total st = 0 /\
     (exists q l : Q,
        pydiv (inject_Z (steps st)) (inject_Z gas) = Ok q /\
        pydiv (total_loss st) q = Ok l) /\
     pydiv (inject_Z (n_pred_correct st)) (inject_Z (n_pred_total st)) =
       Err ZeroDivisionError /\
     train self dl kwargs w = (Err ZeroDivisionError, end_world self dl w)).
Proof.
  intros gas Hs. split.
  - exists train_init,
      {| log := log w ++ [SetTrain]; global_step := global_step w |}.
    assert (Hfin : forall w', train_finish self train_init w' =
                              (Err ZeroDivisionError, w')).
    { intros w'. unfold train_finish, bind, lift. fold gas.
      cbn [steps train_init total_loss].
      unfold pydiv at 1.
      destruct (Qeq_bool (inject_Z gas) 0); [reflexivity|].
      unfold pydiv at 1.
      assert (E : Qeq_bool (inject_Z 0 / inject_Z gas) 0 = true)
        by (apply Qeq_bool_iff; unfold Qeq; simpl; lia).
      rewrite E. reflexivity. }
    repeat split; try reflexivity.
    + apply Hfin.
    + unfold train, bind at 1 2. unfold emit, lift at 1.
      rewrite (get_loss_fn_supported kwargs Hs). unfold bind.
      cbn [train_loop]. unfold ret. apply Hfin.
  - intros dl Hm Hws Hg Hne Hign st.
    assert (Hsteps : steps st <> 0).
    { subst st. rewrite end_state_steps.
      pose proof (processed_pos self dl Hne). lia. }
    assert (Htot : n_pred_total st = 0).
    { subst st. rewrite end_state_n_pred_total.
      apply epoch_valid_all_ignored, Hign. }
    assert (Hq : pydiv (inject_Z (steps st)) (inject_Z gas) =
                 Ok (inject_Z (steps st) / inject_Z gas)%Q)
      by (apply pydiv_nonzero, Hg).
    assert (Hl : pydiv (total_loss st) (inject_Z (steps st) / inject_Z gas) =
                 Ok (total_loss st / (inject_Z (steps st) / inject_Z gas))%Q).
    { unfold pydiv. rewrite (Qdiv_inject_Z_nonzero _ _ Hsteps Hg).
      reflexivity. }
    assert (Ha : pydiv (inject_Z (n_pred_correct st))
                       (inject_Z (n_pred_total st)) = Err ZeroDivisionError)
      by (rewrite Htot; reflexivity).
    split; [exact Hsteps|]. split; [exact Htot|].
    split; [eauto|]. split; [exact Ha|].
    rewrite (train_run self dl kwargs w Hm Hws Hg Hs). fold st.
    unfold train_finish, bind, lift. fold gas.
    rewrite Hq, Hl, Ha. reflexivity.
Qed.

(** *** Loss construction *)

(** C6: a loss kind other than "binary_cross_entropy" makes [get_loss_fn]
    raise [NotImplementedError], and [train] and [eval] raise it when they
    build the loss, before the dataloader is touched (the only call made is
    the switch of the model's mode); the kind "binary_cross_entropy" gives
    the configured functor. *)
Theorem unsupported_loss_fails_at_construction
    (type : string) (red : string) (pw : option (list F))
    (self : Task) (dl : list Batch) (kwargs : Kwargs) (w : World) :
  type <> "binary_cross_entropy"%string ->
  kw_loss_type kwargs = type ->
  let e := NotImplementedError ("loss " ++ type ++ " not yet implemented") in
  get_loss_fn type red pw = Err e /\
  get_loss_fn "binary_cross_entropy" red pw =
    Ok {| reduction := red; pos_weight := pw |} /\
  train self dl kwargs w =
    (Err e, {| log := log w ++ [SetTrain];
               global_step := global_step w |}) /\
  eval self dl kwargs w =
    (Err e, {| log := log w ++ [SetEval];
               global_step := global_step w |}).
Proof.
  intros Hty Hkw e.
  assert (Hg : forall r p, get_loss_fn type r p = Err e).
  { intros r p. unfold get_loss_fn.
    rewrite (proj2 (String.eqb_neq _ _) Hty). reflexivity. }
  split; [apply Hg|]. split; [reflexivity|]. split.
  - unfold train, bind at 1 2. unfold emit, lift at 1.
    rewrite Hkw, Hg. reflexivity.
  - unfold eval, bind at 1 2. unfold emit, lift at 1.
    rewrite Hkw, Hg. reflexivity.
Qed.

(** *** Inference *)

Lemma fold_left_snoc A B (f : A -> B) (l : list A) :
  forall acc, fold_left (fun acc x => acc ++ [f x]) l acc = acc ++ map f l.
Proof.
  induction l as [|x l IH]; intros acc; simpl.
  - rewrite app_nil_r. reflexivity.
  - rewrite IH, <- app_assoc. reflexivity.
Qed.

Lemma inference_batch_ok (pad ignore : Z) (th : F) (b : Batch)
    (preds : list (list Z)) (w : World) :
  assertion_holds pad ignore (log w) b ->
  inference_batch pad ignore th b preds w =
  (Ok (preds ++ batch_sentences pad ignore th (log w) b), w).
Proof.
  intros H. destruct b as [src token_mask].
  unfold inference_batch, bind, history, ret.
  unfold assertion_holds, infer_mask, infer_probs, infer_logits in H.
  cbn [fst snd] in H.
  destruct (list_eq_dec Nat.eq_dec _ _) as [_|Hne]; [|contradiction].
  rewrite fold_left_snoc. reflexivity.
Qed.

Lemma inference_batch_fail (pad ignore : Z) (th : F) (b : Batch)
    (preds : list (list Z)) (w : World) :
  ~ assertion_holds pad ignore (log w) b ->
  inference_batch pad ignore th b preds w = (Err AssertionError, w).
Proof.
  intros H. destruct b as [src token_mask].
  unfold inference_batch, bind, history, raise.
  unfold assertion_holds, infer_mask, infer_probs, infer_logits in H.
  cbn [fst snd] in H.
  destruct (list_eq_dec Nat.eq_dec _ _) as [He|_]; [contradiction|].
  reflexivity.
Qed.

Lemma assertion_dec (pad ignore : Z) (h : list event) (b : Batch) :
  {assertion_holds pad ignore h b} + {~ assertion_holds pad ignore h b}.
Proof. unfold assertion_holds. apply (list_eq_dec Nat.eq_dec). Qed.

Lemma inference_loop_ok (pad ignore : Z) (th : F) (w : World)
    (dl : list Batch) :
  Forall (assertion_holds pad ignore (log w)) dl ->
  forall preds,
  inference_loop pad ignore th dl preds w =
  (Ok (preds ++ flat_map (batch_sentences pad ignore th (log w)) dl), w).
Proof.
  induction 1 as [|b dl Hb _ IH]; intros preds.
  - simpl. rewrite app_nil_r. reflexivity.
  - cbn [inference_loop flat_map]. unfold bind.
    rewrite (inference_batch_ok pad ignore th b preds w Hb), IH.
    rewrite <- app_assoc. reflexivity.
Qed.

Lemma inference_loop_fail (pad ignore : Z) (th : F) (w : World)
    (dl : list Batch) :
  Exists (fun b => ~ assertion_holds pad ignore (log w) b) dl ->
  forall preds,
  inference_loop pad ignore th dl preds w = (Err AssertionError, w).
Proof.
  induction dl as [|b dl IH]; intros HE preds.
  - inversion HE.
  - cbn [inference_loop]. unfold bind.
    destruct (assertion_dec pad ignore (log w) b) as [Hb|Hb].
    + rewrite (inference_batch_ok pad ignore th b preds w Hb).
      apply IH. inversion HE; subst; [contradiction|assumption].
    + rewrite (inference_batch_fail pad ignore th b preds w Hb).
      reflexivity.
Qed.

Lemma inference_run (dl : list Batch) (pad ignore : Z) (th : F)
    (w : World) :
  Forall (assertion_holds pad ignore (log w ++ [SetEval])) dl ->
  inference dl pad ignore th w =
  (Ok (flat_map (batch_sentences pad ignore th (log w ++ [SetEval])) dl),
   {| log := log w ++ [SetEval]; global_step := global_step w |}).
Proof.
  intros H. unfold inference, bind, emit.
  rewrite inference_loop_ok by exact H. reflexivity.
Qed.

(** C8: in [inference], a batch whose token-mask shape is not the shape of
    the sigmoid output makes the run end with the [AssertionError] of the
    assertion, which nothing catches; when the two shapes are equal for
    every batch the assertion never fails and the run returns the selected
    labels. *)
Theorem inference_shape_assertion
    (dl : list Batch) (pad ignore : Z) (th : F) (w : World) :
  let h := log w ++ [SetEval] in
  (Exists (fun b => shape (infer_mask ignore b) <>
                    shape (infer_probs pad h b)) dl ->
   fst (inference dl pad ignore th w) = Err AssertionError) /\
  (Forall (fun b => shape (infer_mask ignore b) =
                    shape (infer_probs pad h b)) dl ->
   fst (inference dl pad ignore th w) =
   Ok (flat_map (batch_sentences pad ignore th h) dl)).
Proof.
  intros h. unfold inference, bind, emit. split; intros H.
  - rewrite inference_loop_fail; [reflexivity|exact H].
  - rewrite inference_loop_ok; [reflexivity|exact H].
Qed.

Lemma threshold_binary (th p : F) : threshold th p = 0 \/ threshold th p = 1.
Proof. unfold threshold. destruct (gtb p th); auto. Qed.

Lemma filter_id_map A (f : A -> bool) (l : list A) :
  length (filter (fun b => b) (map f l)) = length (filter f l).
Proof.
  induction l as [|x l IH]; [reflexivity|].
  simpl. destruct (f x); simpl; rewrite IH; reflexivity.
Qed.

Lemma sentence_labels_row (ignore : Z) (th : F) (row : list Z) (p : list F) :
  length (map (fun m => negb (m =? ignore)) row) = length p ->
  length (sentence_labels th (map (fun m => negb (m =? ignore)) row) p) =
    valid_count ignore row /\
  Forall (fun z => z = 0 \/ z = 1)
         (sentence_labels th (map (fun m => negb (m =? ignore)) row) p).
Proof.
  intros Hlen. unfold sentence_labels, valid_count. split.
  - rewrite length_map, length_select_count by (symmetry; exact Hlen).
    apply filter_id_map.
  - apply Forall_forall. intros z Hz. apply in_map_iff in Hz.
    destruct Hz as (q & <- & _). apply threshold_binary.
Qed.

Lemma batch_sentences_rows (ignore : Z) (th : F) (rows : Tensor Z) :
  forall probs : Tensor F,
  shape (tmap (fun m => negb (m =? ignore)) rows) = shape probs ->
  Forall2 (fun row o => length o = valid_count ignore row /\
                        Forall (fun z => z = 0 \/ z = 1) o)
    rows
    (map (fun mp => sentence_labels th (fst mp) (snd mp))
         (combine (tmap (fun m => negb (m =? ignore)) rows) probs)).
Proof.
  induction rows as [|row rows IH]; intros [|p probs] Hsh;
    simpl in Hsh; try discriminate.
  - constructor.
  - injection Hsh as Hrow Hrest. cbn [tmap map combine fst snd].
    constructor.
    + apply sentence_labels_row. exact Hrow.
    + apply IH. exact Hrest.
Qed.

Lemma flat_map_Forall2 A B C (R : B -> C -> Prop) (f : A -> list B)
    (g : A -> list C) (l : list A) :
  Forall (fun x => Forall2 R (f x) (g x)) l ->
  Forall2 R (flat_map f l) (flat_map g l).
Proof.
  induction 1 as [|x l Hx _ IH]; simpl; [constructor|].
  apply Forall2_app; assumption.
Qed.

(** C7: when the assertion holds for every batch, [inference] returns one
    list per sentence, in the order of the sentences over the whole
    dataloader (batch after batch, row after row), each a list of 0/1
    labels as long as the sentence has valid positions (entries of its token
    mask that are not the ignore index). *)
Theorem inference_one_list_per_sentence
    (dl : list Batch) (pad ignore : Z) (th : F) (w : World) :
  let h := log w ++ [SetEval] in
  Forall (assertion_holds pad ignore h) dl ->
  exists out : list (list Z),
    inference dl pad ignore th w =
      (Ok out, {| log := h; global_step := global_step w |}) /\
    out = flat_map (batch_sentences pad ignore th h) dl /\
    Forall2 (fun row o => length o = valid_count ignore row /\
                          Forall (fun z => z = 0 \/ z = 1) o)
            (flat_map (fun b : Batch => snd b) dl) out.
Proof.
  intros h Hall. eexists. split; [|split; [reflexivity|]].
  - unfold inference, bind, emit.
    rewrite inference_loop_ok by exact Hall. reflexivity.
  - apply flat_map_Forall2. apply Forall_forall. intros b Hb.
    rewrite Forall_forall in Hall. specialize (Hall b Hb).
    unfold batch_sentences, infer_mask.
    apply batch_sentences_rows. exact Hall.
Qed.

(** *** Evaluation *)

Lemma eval_batch_ok (self : Task) (loss_fn : BCEWithLogitsLoss) (b : Batch)
    (st : EvalState) (w : World) :
  model_contract -> well_shaped b ->
  eval_batch self loss_fn b st w =
  (Ok {| e_total_loss :=
           (e_total_loss st + batch_loss self loss_fn (log w) b)%Q;
         e_steps := e_steps st + 1;
         e_preds := e_preds st ++ [batch_preds self (log w) b];
         e_labels := e_labels st ++ [batch_labels self b] |}, w).
Proof.
  intros Hm Hb. destruct b as [src lab]. unfold well_shaped in Hb.
  simpl in Hb.
  assert (Hlog : shape (forward (log w) src (tne src (pad_token_id self))) =
                 shape lab) by (rewrite Hm; exact Hb).
  unfold eval_batch, bind, history, lift, ret.
  unfold masked_loss, apply_loss.
  destruct (list_eq_dec Nat.eq_dec _ _) as [_|Hne]; [|contradiction].
  cbn [rbind].
  rewrite compute_correct_ok
    by (rewrite shape_tne; first [exact Hlog|reflexivity]).
  reflexivity.
Qed.

Lemma eval_loop_ok (self : Task) (loss_fn : BCEWithLogitsLoss) (w : World)
    (dl : list Batch) :
  model_contract -> Forall well_shaped dl ->
  forall st,
  eval_loop self loss_fn dl st w =
  (Ok {| e_total_loss :=
           fold_left Qplus (map (batch_loss self loss_fn (log w)) dl)
                     (e_total_loss st);
         e_steps := e_steps st + Z.of_nat (length dl);
         e_preds := e_preds st ++ map (batch_preds self (log w)) dl;
         e_labels := e_labels st ++ map (batch_labels self) dl |}, w).
Proof.
  intros Hm. induction 1 as [|b dl Hb _ IH]; intros st.
  - simpl. unfold ret. rewrite Z.add_0_r, !app_nil_r.
    destruct st; reflexivity.
  - cbn [eval_loop]. unfold bind.
    rewrite (eval_batch_ok self loss_fn b st w Hm Hb), IH.
    cbn [e_total_loss e_steps e_preds e_labels map fold_left length].
    rewrite <- !app_assoc, Nat2Z.inj_succ.
    replace (e_steps st + 1 + Z.of_nat (length dl))
      with (e_steps st + Z.succ (Z.of_nat (length dl))) by lia.
    reflexivity.
Qed.

(** The score bundle of an evaluation over well-shaped batches. *)
Lemma eval_scores (self : Task) (dl : list Batch) (kwargs : Kwargs)
    (w : World) :
  let h := log w ++ [SetEval] in
  let labels := concat (map (batch_labels self) dl) in
  let preds := concat (map (batch_preds self h) dl) in
  model_contract -> Forall well_shaped dl -> supported kwargs -> dl <> [] ->
  exists scores : Scores,
    eval self dl kwargs w =
      (Ok scores, {| log := h; global_step := global_step w |}) /\
    eval_acc scores = accuracy_score labels preds /\
    (eval_prec scores, eval_rec scores, eval_f_score scores) =
      precision_recall_fscore_support labels preds.
Proof.
  intros h labels preds Hm Hws Hs Hne.
  unfold eval, bind at 1 2. unfold emit, lift at 1.
  rewrite (get_loss_fn_supported kwargs Hs). unfold bind at 1.
  rewrite (eval_loop_ok self (built_loss kwargs) _ dl Hm Hws).
  cbn [log e_total_loss e_steps e_preds e_labels eval_init app]. fold h.
  unfold bind at 1. unfold lift at 1.
  rewrite pydiv_nonzero by (destruct dl; [congruence|simpl; lia]).
  destruct dl as [|b dl]; [congruence|].
  unfold bind, lift, ret. cbn [map np_concatenate].
  unfold labels, preds. cbn [map].
  destruct (precision_recall_fscore_support _ _) as [[pr rc] fs].
  eexists. split; [reflexivity|]. split; reflexivity.
Qed.

(** *** Predictions as thresholded probabilities of the selected logits *)


Lemma combine_map_r A B C (g : B -> C) (l : list A) :
  forall l' : list B,
  combine l (map g l') = map (fun ab => (fst ab, g (snd ab))) (combine l l').
Proof.
  induction l as [|a l IH]; intros [|b l']; simpl; try reflexivity.
  rewrite IH. reflexivity.
Qed.

Lemma batch_sentences_valid_logits (pad ignore : Z) (th : F)
    (h : list event) (b : Batch) :
  batch_sentences pad ignore th h b =
  map (map (fun l => threshold th (sigmoid l)))
      (batch_valid_logits pad ignore h b).
Proof.
  unfold batch_sentences, batch_valid_logits, infer_probs, tmap.
  rewrite combine_map_r, !map_map. apply map_ext. intros [m row].
  cbn [fst snd]. unfold sentence_labels.
  rewrite select_map, map_map. reflexivity.
Qed.

(** ** Further properties *)

(** *** [compute_correct] on any three tensors *)

Lemma compute_correct_flat (logits : Tensor F) (labels mask : Tensor Z)
    (th : F) :
  compute_correct logits labels mask th =
  if (length (flatten logits) =? length (flatten mask))%nat
  then if (length (flatten labels) =? length (flatten mask))%nat
       then let m := map to_bool (flatten mask) in
            let preds :=
              map (fun l => threshold th (sigmoid l))
                  (select (flatten logits) m) in
            let labs := select (flatten labels) m in
            Ok (count_true (vec_eq preds labs), preds, labs)
       else Err IndexError
  else Err IndexError.
Proof.
  unfold compute_correct, bool_index.
  rewrite flatten_tmap, !length_map.
  destruct (length (flatten logits) =? length (flatten mask))%nat;
    [|reflexivity].
  cbn [rbind].
  destruct (length (flatten labels) =? length (flatten mask))%nat;
    [|reflexivity].
  cbn [rbind]. cbv zeta. rewrite select_map. reflexivity.
Qed.

(** X1: [compute_correct] flattens its three tensors, so it returns exactly
    when the logits and the labels have as many elements as the mask,
    whatever their shapes, and raises [IndexError] otherwise. *)
Theorem compute_correct_needs_equal_sizes
    (logits : Tensor F) (labels mask : Tensor Z) (th : F) :
  let sizes_agree :=
    length (flatten logits) = length (flatten mask) /\
    length (flatten labels) = length (flatten mask) in
  (sizes_agree <-> exists c, compute_correct logits labels mask th = Ok c) /\
  (~ sizes_agree <-> compute_correct logits labels mask th = Err IndexError).
Proof.
  intros sizes_agree. subst sizes_agree. rewrite compute_correct_flat.
  destruct (length (flatten logits) =? length (flatten mask))%nat eqn:E1;
    [apply Nat.eqb_eq in E1|apply Nat.eqb_neq in E1];
  [destruct (length (flatten labels) =? length (flatten mask))%nat eqn:E2;
    [apply Nat.eqb_eq in E2|apply Nat.eqb_neq in E2]|];
  (split; split; intros H;
   first [ tauto
         | reflexivity
         | discriminate H
         | eexists; reflexivity
         | destruct H as [c Hc]; discriminate Hc ]).
Qed.

Lemma length_vec_eq_le (a b : list Z) :
  (length (filter (fun x => x) (vec_eq a b)) <= length a)%nat.
Proof.
  revert b. induction a as [|x a IH]; intros [|y b]; simpl; try lia.
  specialize (IH b). destruct (x =? y); simpl; lia.
Qed.

Lemma length_select_to_bool A (xs : list A) (mask : list Z) :
  length xs = length mask ->
  length (select xs (map to_bool mask)) = length (filter to_bool mask).
Proof.
  intros H. rewrite length_select_count by (rewrite length_map; exact H).
  apply filter_id_map.
Qed.

(** X2: when the sizes agree, the two vectors that [compute_correct] returns
    have one entry per nonzero mask entry, the predictions are 0 or 1, and
    the count lies between 0 and the number of nonzero mask entries. *)
Theorem compute_correct_vectors
    (logits : Tensor F) (labels mask : Tensor Z) (th : F) :
  length (flatten logits) = length (flatten mask) ->
  length (flatten labels) = length (flatten mask) ->
  let kept := length (filter to_bool (flatten mask)) in
  exists n preds labs,
    compute_correct logits labels mask th = Ok (n, preds, labs) /\
    length preds = kept /\ length labs = kept /\
    Forall (fun z => z = 0 \/ z = 1) preds /\
    0 <= n <= Z.of_nat kept.
Proof.
  intros Hl Hy kept. rewrite compute_correct_flat.
  rewrite (proj2 (Nat.eqb_eq _ _) Hl), (proj2 (Nat.eqb_eq _ _) Hy).
  cbv zeta. eexists _, _, _. split; [reflexivity|].
  assert (Hp : length (map (fun l => threshold th (sigmoid l))
                 (select (flatten logits) (map to_bool (flatten mask)))) =
               kept)
    by (rewrite length_map; apply length_select_to_bool; exact Hl).
  split; [exact Hp|]. split; [apply length_select_to_bool; exact Hy|].
  split.
  - apply Forall_forall. intros z Hz. apply in_map_iff in Hz.
    destruct Hz as (l & <- & _). apply threshold_binary.
  - unfold count_true.
    pose proof (length_vec_eq_le
      (map (fun l => threshold th (sigmoid l))
           (select (flatten logits) (map to_bool (flatten mask))))
      (select (flatten labels) (map to_bool (flatten mask)))) as Hle.
    rewrite Hp in Hle. lia.
Qed.

(** *** The result of a training epoch *)

Lemma train_result (self : Task) (dl : list Batch) (kwargs : Kwargs)
    (w : World) :
  let gas := gradient_accumulation_steps (args self) in
  let n := Z.of_nat (processed self dl) in
  let h0 := log w ++ [SetTrain] in
  model_contract -> Forall well_shaped dl -> gas <> 0 -> supported kwargs ->
  dl <> [] -> epoch_valid self dl <> 0 ->
  train self dl kwargs w =
  (Ok ((epoch_loss self (built_loss kwargs) h0 dl /
        (inject_Z n / inject_Z gas))%Q,
       (inject_Z (epoch_correct self h0 dl) /
        inject_Z (epoch_valid self dl))%Q),
   {| log := log w ++ SetTrain :: trace gas (processed self dl);
      global_step := global_step w + Z.quot n gas |}).
Proof.
  intros gas n h0 Hm Hws Hg Hs Hne Hv.
  rewrite (train_run self dl kwargs w Hm Hws Hg Hs).
  pose proof (processed_pos self dl Hne) as Hpos.
  rewrite train_finish_ok.
  - rewrite end_state_steps, end_state_total_loss, end_state_n_pred_total,
      end_state_n_pred_correct. reflexivity.
  - exact Hg.
  - rewrite end_state_steps. lia.
  - rewrite end_state_n_pred_total. exact Hv.
Qed.

(** *** How many batches an epoch goes through *)

Lemma stop_test (gas s spe : Z) :
  gas <> 0 ->
  Qeq_bool (inject_Z s / inject_Z gas) (inject_Z spe) = (s =? spe * gas).
Proof.
  intros Hg.
  assert (Hg' : ~ (inject_Z gas == 0)%Q) by (unfold Qeq; simpl; lia).
  destruct (s =? spe * gas) eqn:E.
  - apply Z.eqb_eq in E. subst s. apply Qeq_bool_iff.
    rewrite inject_Z_mult. field. exact Hg'.
  - apply Z.eqb_neq in E.
    destruct (Qeq_bool _ _) eqn:E'; [|reflexivity].
    apply Qeq_bool_iff in E'. exfalso. apply E.
    apply inject_Z_injective. rewrite inject_Z_mult, <- E'.
    field. exact Hg'.
Qed.

Lemma run_length_target (gas spe : Z) (len : nat) :
  gas <> 0 ->
  forall s,
  run_length gas spe s len =
  if (s <? spe * gas) && (spe * gas <=? s + Z.of_nat len)
  then Z.to_nat (spe * gas - s) else len.
Proof.
  intros Hg. induction len as [|len IH]; intros s.
  - destruct (Z.ltb_spec s (spe * gas)), (Z.leb_spec (spe * gas) (s + Z.of_nat 0));
      cbn [andb run_length]; lia.
  - cbn [run_length]. rewrite (stop_test gas (s + 1) spe Hg), IH.
    destruct (Z.eqb_spec (s + 1) (spe * gas)) as [E|E];
    destruct (Z.ltb_spec s (spe * gas)),
             (Z.leb_spec (spe * gas) (s + Z.of_nat (S len))),
             (Z.ltb_spec (s + 1) (spe * gas)),
             (Z.leb_spec (spe * gas) (s + 1 + Z.of_nat len));
      cbn [andb]; lia.
Qed.

Lemma processed_target (self : Task) (dl : list Batch) :
  let gas := gradient_accumulation_steps (args self) in
  let budget := steps_per_epoch (args self) * gas in
  gas <> 0 ->
  processed self dl =
  if (1 <=? budget) && (budget <=? Z.of_nat (length dl))
  then Z.to_nat budget else length dl.
Proof.
  intros gas budget Hg.
  unfold processed. fold gas. rewrite (run_length_target _ _ _ Hg).
  fold budget. cbn [Z.add].
  destruct (Z.ltb_spec 0 budget), (Z.leb_spec 1 budget); try lia;
    cbn [andb]; [|reflexivity].
  destruct (budget <=? Z.of_nat (length dl)); [|reflexivity].
  f_equal. lia.
Qed.

(** X3: for a nonzero [gradient_accumulation_steps], an epoch goes through
    exactly [steps_per_epoch * gradient_accumulation_steps] batches when that
    product is at least 1 and at most the length of the dataloader, and
    through the whole dataloader otherwise. *)
Theorem epoch_batch_budget
    (self : Task) (dl : list Batch) (kwargs : Kwargs) (w : World) :
  let gas := gradient_accumulation_steps (args self) in
  let budget := steps_per_epoch (args self) * gas in
  model_contract -> Forall well_shaped dl -> gas <> 0 -> supported kwargs ->
  exists new : list event,
    log (snd (train self dl kwargs w)) = log w ++ SetTrain :: new /\
    batches_entered new =
      seq 0 (if (1 <=? budget) && (budget <=? Z.of_nat (length dl))
             then Z.to_nat budget else length dl).
Proof.
  intros gas budget Hm Hws Hg Hs.
  exists (trace gas (processed self dl)).
  rewrite (train_run self dl kwargs w Hm Hws Hg Hs), train_finish_log.
  split; [reflexivity|].
  rewrite batches_entered_trace, (processed_target self dl Hg).
  reflexivity.
Qed.

(** *** Optimizer steps and the step counter *)

Lemma count_steps (gas : Z) (n : nat) :
  0 < gas ->
  Z.of_nat (length (filter (fun i => Z.of_nat i mod gas =? 0) (seq 0 n))) =
  (Z.of_nat n + gas - 1) / gas.
Proof.
  intros Hg. induction n as [|n IH].
  - simpl. symmetry. apply Z.div_small. lia.
  - rewrite seq_S, filter_app, length_app, Nat2Z.inj_add, IH.
    cbn [Nat.add filter].
    pose proof (Z.div_mod (Z.of_nat n) gas ltac:(lia)) as Hn.
    pose proof (Z.mod_pos_bound (Z.of_nat n) gas Hg) as Hb.
    set (q := Z.of_nat n / gas) in *. set (r := Z.of_nat n mod gas) in *.
    rewrite Nat2Z.inj_succ.
    destruct (Z.eqb_spec r 0) as [E|E]; cbn [length].
    + rewrite <- (Z.div_unique (Z.of_nat n + gas - 1) gas q (gas - 1))
        by lia.
      rewrite <- (Z.div_unique (Z.succ (Z.of_nat n) + gas - 1) gas (q + 1) 0)
        by lia.
      lia.
    + rewrite <- (Z.div_unique (Z.of_nat n + gas - 1) gas (q + 1) (r - 1))
        by lia.
      rewrite <- (Z.div_unique (Z.succ (Z.of_nat n) + gas - 1) gas (q + 1) r)
        by lia.
      simpl. lia.
Qed.

Lemma train_finish_global_step (self : Task) (st : TrainState) (w w' : World)
    (la : Q * Q) :
  gradient_accumulation_steps (args self) <> 0 ->
  train_finish self st w = (Ok la, w') ->
  global_step w' =
  global_step w + Z.quot (steps st) (gradient_accumulation_steps (args self)).
Proof.
  intros Hg. unfold train_finish, bind, lift, add_global_step, ret.
  rewrite (pydiv_nonzero _ _ Hg).
  destruct (pydiv (total_loss st) _) as [l|e]; [|discriminate].
  destruct (pydiv (inject_Z (n_pred_correct st)) _) as [a|e]; [|discriminate].
  intros H. injection H as _ <-. cbn [global_step].
  rewrite (pyint_div _ _ Hg). reflexivity.
Qed.

(** X4: for a positive [gradient_accumulation_steps], an epoch that goes
    through n batches steps the optimizer (and the scheduler) ceil(n / gas)
    times, and when it returns it has advanced [global_step] by
    floor(n / gas): the counter is never ahead of the optimizer and at most
    one step behind it. *)
Theorem optimizer_steps_and_counter
    (self : Task) (dl : list Batch) (kwargs : Kwargs) (w : World) :
  let gas := gradient_accumulation_steps (args self) in
  model_contract -> Forall well_shaped dl -> 0 < gas -> supported kwargs ->
  exists (n : nat) (new : list event),
    log (snd (train self dl kwargs w)) = log w ++ SetTrain :: new /\
    batches_entered new = seq 0 n /\
    Z.of_nat (length (optimizer_steps new)) = (Z.of_nat n + gas - 1) / gas /\
    Z.of_nat (length (scheduler_steps new)) = (Z.of_nat n + gas - 1) / gas /\
    (forall la, fst (train self dl kwargs w) = Ok la ->
       let advance := global_step (snd (train self dl kwargs w)) -
                      global_step w in
       advance = Z.of_nat n / gas /\
       advance <= Z.of_nat (length (optimizer_steps new)) <= advance + 1).
Proof.
  intros gas Hm Hws Hpos Hs.
  assert (Hg : gas <> 0) by lia.
  exists (processed self dl), (trace gas (processed self dl)).
  rewrite (train_run self dl kwargs w Hm Hws Hg Hs), train_finish_log.
  rewrite optimizer_steps_trace, scheduler_steps_trace, batches_entered_trace.
  rewrite (count_steps _ _ Hpos).
  do 4 (split; [reflexivity|]).
  intros la Hla advance.
  destruct (train_finish self (end_state self dl kwargs w)
                         (end_world self dl w)) as [r w'] eqn:E.
  cbn [fst] in Hla. subst r.
  pose proof (train_finish_global_step self _ _ _ _ Hg E) as Hgs.
  rewrite end_state_steps in Hgs. fold gas in Hgs.
  subst advance. cbn [snd]. rewrite Hgs. cbn [global_step end_world].
  rewrite Z.quot_div_nonneg by lia.
  set (n := Z.of_nat (processed self dl)).
  assert (Hn : 0 <= n) by (subst n; lia).
  pose proof (Z.div_mod n gas Hg) as Hdm.
  pose proof (Z.mod_pos_bound n gas Hpos) as Hb.
  assert (Hc : n / gas <= (n + gas - 1) / gas <= n / gas + 1).
  { split.
    - apply Z.div_le_mono; lia.
    - replace (n / gas + 1) with ((n + gas) / gas).
      + apply Z.div_le_mono; lia.
      + replace (n + gas) with (n + 1 * gas) by lia.
        rewrite Z.div_add by lia. reflexivity. }
  split; lia.
Qed.

(** *** The accuracy of an epoch is a ratio *)

Lemma filter_length_le A (f g : A -> bool) (l : list A) :
  (forall x, f x = true -> g x = true) ->
  (length (filter f l) <= length (filter g l))%nat.
Proof.
  intros H. induction l as [|x l IH]; simpl; [lia|].
  destruct (f x) eqn:Ef.
  - rewrite (H x Ef). simpl. lia.
  - destruct (g x); simpl; lia.
Qed.

Lemma count_mask_positions (mask : list Z) :
  length (filter (fun i => match nth_error mask i with
                           | Some m => to_bool m
                           | None => false
                           end) (seq 0 (length mask))) =
  length (filter to_bool mask).
Proof.
  induction mask as [|m mask IH]; [reflexivity|].
  cbn [length seq filter nth_error].
  assert (Hsh :
    length (filter (fun i => match nth_error (m :: mask) i with
                             | Some m0 => to_bool m0
                             | None => false
                             end) (seq 1 (length mask))) =
    length (filter to_bool mask))
    by (rewrite length_filter_shift; exact IH).
  destruct (to_bool m); cbn [length]; rewrite Hsh; reflexivity.
Qed.

Lemma masked_matches_bounds (logits : Tensor F) (labels mask : Tensor Z)
    (th : F) :
  0 <= masked_matches logits labels mask th <=
  Z.of_nat (length (filter to_bool (flatten mask))).
Proof.
  unfold masked_matches. split; [lia|].
  rewrite <- count_mask_positions. apply inj_le, filter_length_le.
  intros i. unfold hit_at.
  destruct (nth_error (flatten mask) i) as [m|]; [|discriminate].
  destruct (nth_error (flatten logits) i), (nth_error (flatten labels) i);
    try discriminate.
  intros H. apply andb_prop in H. tauto.
Qed.

Lemma tsum_tne_count (t : Tensor Z) (v : Z) :
  tsum (tne t v) = Z.of_nat (length (filter to_bool (flatten (tne t v)))).
Proof.
  unfold tsum, tne. rewrite flatten_tmap.
  induction (flatten t) as [|x l IH]; [reflexivity|].
  cbn [map fold_right filter]. rewrite IH.
  destruct (x =? v); cbn [to_bool Z.eqb negb length]; lia.
Qed.

Lemma batch_correct_bounds (self : Task) (h : list event) (b : Batch) :
  0 <= batch_correct self h b <= batch_valid self b.
Proof.
  unfold batch_correct, batch_valid, batch_mask.
  rewrite tsum_tne_count. apply masked_matches_bounds.
Qed.

Lemma fold_left_add_le A (f g : A -> Z) (l : list A) :
  (forall x, In x l -> f x <= g x) ->
  forall a b, a <= b ->
  fold_left Z.add (map f l) a <= fold_left Z.add (map g l) b.
Proof.
  induction l as [|x l IH]; intros H a b Hab; [exact Hab|].
  cbn [map fold_left]. apply IH.
  - intros y Hy. apply H. right. exact Hy.
  - pose proof (H x (or_introl eq_refl)). lia.
Qed.

Lemma epoch_correct_bounds (self : Task) (h0 : list event)
    (dl : list Batch) :
  0 <= epoch_correct self h0 dl <= epoch_valid self dl.
Proof.
  unfold epoch_correct, epoch_valid, zsum. split.
  - rewrite <- (fold_left_add_zeros _ (fun _ : nat * Batch => 0)
                  (epoch_batches self dl) (fun _ _ => eq_refl) 0) at 1.
    apply fold_left_add_le; [|lia].
    intros kb _. apply batch_correct_bounds.
  - apply fold_left_add_le; [|lia].
    intros kb _. apply batch_correct_bounds.
Qed.

Lemma ratio_in_unit_interval (c v : Z) :
  0 <= c <= v -> v <> 0 ->
  (0 <= inject_Z c / inject_Z v)%Q /\ (inject_Z c / inject_Z v <= 1)%Q.
Proof.
  intros Hc Hv. destruct v as [|p|p]; try lia.
  unfold Qle, Qdiv, Qmult, Qinv, inject_Z. cbn [Qnum Qden].
  split; lia.
Qed.

(** X5: the accuracy that [train] returns is a ratio between 0 and 1: the
    correct predictions are counted among the valid labels only. *)
Theorem train_accuracy_in_unit_interval
    (self : Task) (dl : list Batch) (kwargs : Kwargs) (w : World) :
  model_contract -> Forall well_shaped dl ->
  gradient_accumulation_steps (args self) <> 0 -> supported kwargs ->
  dl <> [] -> epoch_valid self dl <> 0 ->
  exists (loss acc : Q) (w' : World),
    train self dl kwargs w = (Ok (loss, acc), w') /\
    (0 <= acc)%Q /\ (acc <= 1)%Q.
Proof.
  intros Hm Hws Hg Hs Hne Hv.
  rewrite (train_result self dl kwargs w Hm Hws Hg Hs Hne Hv).
  eexists _, _, _. split; [reflexivity|].
  apply ratio_in_unit_interval; [|exact Hv].
  apply epoch_correct_bounds.
Qed.

(** *** The loss of an epoch is the mean batch loss *)




(** *** What an exception leaves behind *)

Lemma train_batch_global_step (self : Task) (loss_fn : BCEWithLogitsLoss)
    (i : nat) (b : Batch) (st : TrainState) (w : World) :
  global_step (snd (train_batch self loss_fn i b st w)) = global_step w.
Proof.
  destruct b as [src lab].
  unfold train_batch, bind, emit, history, lift, ret. cbn [log global_step].
  destruct (masked_loss _ _ _ _) as [l|e]; [|reflexivity].
  destruct (pymod _ _) as [r|e]; [|reflexivity].
  destruct (r =? 0); cbn [log global_step];
    destruct (compute_correct _ _ _ _) as [c|e]; try reflexivity;
    destruct (pydiv _ _) as [q|e]; reflexivity.
Qed.

Lemma train_loop_global_step (self : Task) (loss_fn : BCEWithLogitsLoss)
    (dl : list Batch) :
  forall i st w,
  global_step (snd (train_loop self loss_fn i dl st w)) = global_step w.
Proof.
  induction dl as [|b dl IH]; intros i st w; [reflexivity|].
  cbn [train_loop]. unfold bind.
  pose proof (train_batch_global_step self loss_fn i b st w) as Hb.
  destruct (train_batch self loss_fn i b st w) as [[sb|e] w1];
    cbn [snd] in Hb; [|exact Hb].
  destruct (snd sb); [exact Hb|]. rewrite IH. exact Hb.
Qed.

Lemma train_finish_error (self : Task) (st : TrainState) (w : World)
    (e : exn) :
  fst (train_finish self st w) = Err e -> snd (train_finish self st w) = w.
Proof.
  unfold train_finish, bind, lift, add_global_step, ret.
  destruct (pydiv (inject_Z (steps st)) _) as [q|e1]; [|reflexivity].
  destruct (pydiv (total_loss st) q) as [l|e1]; [|reflexivity].
  destruct (pydiv (inject_Z (n_pred_correct st)) _) as [a|e1];
    [discriminate|reflexivity].
Qed.

(** X7: whatever the task, the dataloader and the model, a [train] that
    raises leaves [global_step] as it was: the counter is written once, after
    the last division. *)
Theorem train_error_keeps_global_step
    (self : Task) (dl : list Batch) (kwargs : Kwargs) (w : World) (e : exn) :
  fst (train self dl kwargs w) = Err e ->
  global_step (snd (train self dl kwargs w)) = global_step w.
Proof.
  unfold train, bind, emit, lift.
  destruct (get_loss_fn _ _ _) as [loss_fn|e0]; [|reflexivity].
  pose proof (train_loop_global_step self loss_fn dl 0%nat train_init
                {| log := log w ++ [SetTrain];
                   global_step := global_step w |}) as Hl.
  destruct (train_loop self loss_fn 0 dl train_init _) as [[st|e0] w1];
    cbn [snd global_step] in Hl; [|intros _; exact Hl].
  intros Herr. rewrite (train_finish_error self st w1 e Herr). exact Hl.
Qed.

(** X8: the first batch of a dataloader whose logits do not have the shape
    of its labels makes [train] raise the [ValueError] of the loss functor
    right after the gradients are zeroed: nothing is backpropagated and no
    step is taken, for every [gradient_accumulation_steps], zero included. *)
Theorem train_rejects_misshaped_batch
    (self : Task) (src lab : Tensor Z) (rest : list Batch) (kwargs : Kwargs)
    (w : World) :
  supported kwargs ->
  shape (forward (log w ++ [SetTrain; ZeroGrad 0]) src
                 (tne src (pad_token_id self))) <> shape lab ->
  train self ((src, lab) :: rest) kwargs w =
  (Err ValueError,
   {| log := log w ++ [SetTrain; ZeroGrad 0];
      global_step := global_step w |}).
Proof.
  intros Hs Hshape. unfold train, bind at 1 2. unfold emit, lift at 1.
  rewrite (get_loss_fn_supported kwargs Hs). unfold bind at 1.
  cbn [train_loop]. unfold bind at 1.
  unfold train_batch, bind, emit, history, lift. cbn [log global_step].
  rewrite <- app_assoc. cbn [app].
  unfold masked_loss, apply_loss.
  destruct (list_eq_dec Nat.eq_dec _ _) as [He|_]; [contradiction|].
  reflexivity.
Qed.

(** *** Each optimizer step sees one batch *)

Lemma trace_split (gas : Z) (n i : nat) :
  (i < n)%nat ->
  exists post, trace gas n = trace gas i ++ batch_events gas i ++ post.
Proof.
  intros Hi. unfold trace.
  replace n with (i + S (n - S i))%nat by lia.
  rewrite seq_app, flat_map_app. cbn [Nat.add seq flat_map].
  eexists. reflexivity.
Qed.

(** X9: in an epoch every optimizer step comes right after the gradients of
    its own batch were zeroed, backpropagated and clipped, and right before
    the scheduler step: the gradients that a step applies are those of one
    batch, never an accumulation over several. *)
Theorem optimizer_step_follows_its_batch
    (self : Task) (dl : list Batch) (kwargs : Kwargs) (w : World) :
  model_contract -> Forall well_shaped dl ->
  gradient_accumulation_steps (args self) <> 0 -> supported kwargs ->
  exists new : list event,
    log (snd (train self dl kwargs w)) = log w ++ SetTrain :: new /\
    forall i, In i (optimizer_steps new) ->
      exists pre post,
        new = pre ++ [ZeroGrad i; Backward i; ClipGrad i;
                      OptimizerStep i; SchedulerStep i] ++ post.
Proof.
  intros Hm Hws Hg Hs.
  exists (trace (gradient_accumulation_steps (args self)) (processed self dl)).
  rewrite (train_run self dl kwargs w Hm Hws Hg Hs), train_finish_log.
  split; [reflexivity|].
  intros i Hi. rewrite optimizer_steps_trace in Hi.
  apply filter_In in Hi. destruct Hi as [Hin Hmod].
  apply in_seq in Hin.
  destruct (trace_split (gradient_accumulation_steps (args self))
              (processed self dl) i) as [post Hpost]; [lia|].
  exists (trace (gradient_accumulation_steps (args self)) i), post.
  rewrite Hpost. unfold batch_events. rewrite Hmod. reflexivity.
Qed.

(** *** Evaluation and inference leave the optimizer alone *)

Lemma eval_batch_world (self : Task) (loss_fn : BCEWithLogitsLoss)
    (b : Batch) (st : EvalState) (w : World) :
  snd (eval_batch self loss_fn b st w) = w.
Proof.
  destruct b as [src lab]. unfold eval_batch, bind, history, lift, ret.
  destruct (masked_loss _ _ _ _) as [l|e]; [|reflexivity].
  destruct (compute_correct _ _ _ _) as [[[n p] y]|e]; reflexivity.
Qed.

Lemma eval_loop_world (self : Task) (loss_fn : BCEWithLogitsLoss)
    (dl : list Batch) :
  forall st w, snd (eval_loop self loss_fn dl st w) = w.
Proof.
  induction dl as [|b dl IH]; intros st w; [reflexivity|].
  cbn [eval_loop]. unfold bind.
  pose proof (eval_batch_world self loss_fn b st w) as Hb.
  destruct (eval_batch self loss_fn b st w) as [[st'|e] w1];
    cbn [snd] in Hb; subst w1; [apply IH|reflexivity].
Qed.

Lemma inference_batch_world (pad ignore : Z) (th : F) (b : Batch)
    (preds : list (list Z)) (w : World) :
  snd (inference_batch pad ignore th b preds w) = w.
Proof.
  destruct b as [src token_mask].
  unfold inference_batch, bind, history, ret, raise.
  destruct (list_eq_dec Nat.eq_dec _ _); reflexivity.
Qed.

Lemma inference_loop_world (pad ignore : Z) (th : F) (dl : list Batch) :
  forall preds w, snd (inference_loop pad ignore th dl preds w) = w.
Proof.
  induction dl as [|b dl IH]; intros preds w; [reflexivity|].
  cbn [inference_loop]. unfold bind.
  pose proof (inference_batch_world pad ignore th b preds w) as Hb.
  destruct (inference_batch pad ignore th b preds w) as [[p|e] w1];
    cbn [snd] in Hb; subst w1; [apply IH|reflexivity].
Qed.

(** X10: on every input, also one that makes them raise, [eval] and
    [inference] do nothing to the model, the optimizer, the scheduler and
    [global_step] but switch the model to evaluation mode. *)
Theorem eval_and_inference_only_switch_mode
    (self : Task) (dl : list Batch) (kwargs : Kwargs)
    (pad ignore : Z) (th : F) (w : World) :
  let w' := {| log := log w ++ [SetEval]; global_step := global_step w |} in
  snd (eval self dl kwargs w) = w' /\
  snd (inference dl pad ignore th w) = w'.
Proof.
  intros w'. split.
  - unfold eval, bind at 1 2. unfold emit, lift at 1.
    destruct (get_loss_fn _ _ _) as [loss_fn|e]; [|reflexivity].
    unfold bind at 1.
    pose proof (eval_loop_world self loss_fn dl eval_init w') as Hl.
    fold w'. destruct (eval_loop self loss_fn dl eval_init w') as [[st|e] w1];
      cbn [snd] in Hl; subst w1; [|reflexivity].
    unfold bind, lift, ret.
    destruct (pydiv _ _) as [l|e]; [|reflexivity].
    destruct (np_concatenate (e_labels st)) as [ls|e]; [|reflexivity].
    destruct (np_concatenate (e_preds st)) as [ps|e]; [|reflexivity].
    destruct (precision_recall_fscore_support ls ps) as [[pr rc] fs].
    reflexivity.
  - unfold inference, bind, emit. fold w'.
    pose proof (inference_loop_world pad ignore th dl [] w') as Hl.
    destruct (inference_loop pad ignore th dl [] w') as [[p|e] w1];
      cbn [snd] in Hl; subst w1; reflexivity.
Qed.

(** *** The loss of an evaluation *)


(** *** Inference over a dataloader in two parts *)

(** X12: when the shape assertion holds on every batch, the output of
    [inference] on a dataloader made of two parts is the output on the first
    part followed by the output on the second. *)
Theorem inference_of_concatenation
    (dl1 dl2 : list Batch) (pad ignore : Z) (th : F) (w : World) :
  Forall (assertion_holds pad ignore (log w ++ [SetEval])) (dl1 ++ dl2) ->
  exists out1 out2 : list (list Z),
    fst (inference dl1 pad ignore th w) = Ok out1 /\
    fst (inference dl2 pad ignore th w) = Ok out2 /\
    fst (inference (dl1 ++ dl2) pad ignore th w) = Ok (out1 ++ out2).
Proof.
  intros H. pose proof H as H12. apply Forall_app in H12.
  destruct H12 as [H1 H2].
  rewrite (inference_run dl1 pad ignore th w H1),
          (inference_run dl2 pad ignore th w H2),
          (inference_run (dl1 ++ dl2) pad ignore th w H).
  eexists _, _. repeat split. cbn [fst]. rewrite flat_map_app. reflexivity.
Qed.

(** *** Inference labels and training predictions agree *)

Lemma select_app A (xs ys : list A) (m m' : list bool) :
  length xs = length m ->
  select (xs ++ ys) (m ++ m') = select xs m ++ select ys m'.
Proof.
  revert m. induction xs as [|x xs IH]; intros [|b m] H; simpl in H;
    try discriminate; [reflexivity|].
  injection H as H. cbn [app select]. rewrite (IH m H).
  destruct b; reflexivity.
Qed.

Lemma select_concat A (rows : list (list A)) :
  forall masks : list (list bool),
  map (@length A) rows = map (@length bool) masks ->
  select (concat rows) (concat masks) =
  concat (map (fun mr => select (snd mr) (fst mr)) (combine masks rows)).
Proof.
  induction rows as [|r rows IH]; intros [|m masks] H; simpl in H;
    try discriminate; [reflexivity|].
  injection H as Hr Hrest. cbn [concat combine map fst snd].
  rewrite (select_app _ _ _ _ _ Hr), (IH masks Hrest). reflexivity.
Qed.

Lemma to_bool_tne (t : Tensor Z) (v : Z) :
  map to_bool (flatten (tne t v)) =
  flatten (tmap (fun m => negb (m =? v)) t).
Proof.
  unfold tne. rewrite !flatten_tmap, map_map. apply map_ext.
  intros x. destruct (x =? v); reflexivity.
Qed.

(** X13: on a batch that passes the shape assertion, the labels that
    [inference] gives to the sentences, put end to end, are the prediction
    vector that [compute_correct] returns for the same logits under the mask
    of the valid tokens: thresholding before or after the selection is the
    same. *)
Theorem inference_labels_are_compute_correct_predictions
    (pad ignore : Z) (th : F) (h : list event) (b : Batch)
    (labels : Tensor Z) :
  assertion_holds pad ignore h b ->
  length (flatten labels) = length (flatten (snd b)) ->
  exists n labs,
    compute_correct (infer_logits pad h b) labels (tne (snd b) ignore) th =
    Ok (n, concat (batch_sentences pad ignore th h b), labs).
Proof.
  intros Ha Hy. unfold assertion_holds, infer_mask, infer_probs in Ha.
  rewrite !shape_tmap in Ha.
  assert (Hl : length (flatten (infer_logits pad h b)) =
               length (flatten (tne (snd b) ignore)))
    by (apply shape_length_flatten; rewrite shape_tne; symmetry; exact Ha).
  assert (Hy' : length (flatten labels) =
                length (flatten (tne (snd b) ignore)))
    by (rewrite Hy; apply shape_length_flatten; rewrite shape_tne;
        reflexivity).
  rewrite compute_correct_flat.
  rewrite (proj2 (Nat.eqb_eq _ _) Hl), (proj2 (Nat.eqb_eq _ _) Hy').
  cbv zeta. eexists _, _. do 2 f_equal. f_equal.
  rewrite batch_sentences_valid_logits, <- concat_map. f_equal.
  rewrite to_bool_tne. unfold batch_valid_logits, infer_mask, flatten.
  apply select_concat.
  symmetry. unfold shape in Ha. rewrite <- Ha.
  unfold tmap. rewrite map_map. apply map_ext. intros r.
  rewrite length_map. reflexivity.
Qed.

(** *** The schedule of the driver *)

Lemma pyint_inject_Z (z : Z) : pyint (inject_Z z) = z.
Proof. unfold pyint, inject_Z. cbn [Qnum Qden]. apply Z.quot_1_r. Qed.

Lemma compute_warmup_steps_ok (ns : Namespace) :
  ns_gradient_accumulation_steps ns <> 0 ->
  compute_warmup_steps ns =
  let spe := Z.quot (ns_batches_per_epoch ns)
                    (ns_gradient_accumulation_steps ns) in
  Ok {| sc_steps_per_epoch := spe;
        num_warmup_steps := (inject_Z spe * (3 # 2))%Q;
        num_training_steps := spe * ns_epochs ns |}.
Proof.
  intros Hg. unfold compute_warmup_steps.
  rewrite (pydiv_nonzero _ _ Hg). cbn [rbind].
  rewrite (pyint_div _ _ Hg), pyint_inject_Z. reflexivity.
Qed.

(** X14: [compute_warmup_steps] raises [ZeroDivisionError] for
    [gradient_accumulation_steps = 0]; for a positive value and a
    non-negative [batches_per_epoch] it sets [steps_per_epoch] to the whole
    number of accumulation groups that fit in an epoch, the warm-up to one and
    a half epochs of steps, and the training steps to [steps_per_epoch] times
    the epochs, so that the warm-up is longer than the whole training when
    there is one epoch. *)
Theorem compute_warmup_steps_schedule (ns : Namespace) :
  let gas := ns_gradient_accumulation_steps ns in
  let bpe := ns_batches_per_epoch ns in
  (gas = 0 -> compute_warmup_steps ns = Err ZeroDivisionError) /\
  (0 < gas -> 0 <= bpe ->
   exists sc : Schedule,
     compute_warmup_steps ns = Ok sc /\
     sc_steps_per_epoch sc * gas <= bpe < (sc_steps_per_epoch sc + 1) * gas /\
     num_training_steps sc = sc_steps_per_epoch sc * ns_epochs ns /\
     (num_warmup_steps sc * 2 == inject_Z (3 * sc_steps_per_epoch sc))%Q /\
     (ns_epochs ns = 1 -> 0 < sc_steps_per_epoch sc ->
      (inject_Z (num_training_steps sc) < num_warmup_steps sc)%Q)).
Proof.
  intros gas bpe. split.
  - intros Hg. unfold compute_warmup_steps. fold gas. rewrite Hg.
    reflexivity.
  - intros Hg Hb. rewrite compute_warmup_steps_ok by (fold gas; lia).
    cbv zeta. fold gas bpe. eexists. split; [reflexivity|].
    cbn [sc_steps_per_epoch num_training_steps num_warmup_steps].
    rewrite Z.quot_div_nonneg by lia.
    pose proof (Z.div_mod bpe gas ltac:(lia)) as Hdm.
    pose proof (Z.mod_pos_bound bpe gas Hg) as Hmb.
    split; [lia|]. split; [reflexivity|]. split.
    + unfold Qeq, Qmult, inject_Z. cbn [Qnum Qden]. lia.
    + intros He Hpos. rewrite He.
      unfold Qlt, Qmult, inject_Z. cbn [Qnum Qden]. lia.
Qed.

(** *** An epoch under the schedule of the driver *)

Lemma driver_budget (ns : Namespace) (len pad : Z) (dl : list Batch) :
  let gas := ns_gradient_accumulation_steps ns in
  let spe := len / gas in
  1 <= gas -> gas <= len -> Z.of_nat (length dl) = len ->
  compute_warmup_steps (with_batches_per_epoch ns len) =
    Ok {| sc_steps_per_epoch := spe;
          num_warmup_steps := (inject_Z spe * (3 # 2))%Q;
          num_training_steps := spe * ns_epochs ns |} /\
  1 <= spe /\ spe * gas <= len < (spe + 1) * gas /\
  forall sc, sc_steps_per_epoch sc = spe ->
    processed (driver_task (with_batches_per_epoch ns len) sc pad) dl =
    (Z.to_nat spe * Z.to_nat gas)%nat.
Proof.
  intros gas spe Hg Hlen Hdl.
  pose proof (Z.div_mod len gas ltac:(lia)) as Hdm.
  pose proof (Z.mod_pos_bound len gas ltac:(lia)) as Hmb.
  fold spe in Hdm.
  assert (Hspe : 1 <= spe) by (apply Z.div_le_lower_bound; lia).
  split.
  - rewrite compute_warmup_steps_ok by (cbn; fold gas; lia).
    cbn [with_batches_per_epoch ns_batches_per_epoch
         ns_gradient_accumulation_steps ns_epochs]. fold gas.
    cbv zeta. rewrite Z.quot_div_nonneg by lia. reflexivity.
  - split; [exact Hspe|]. split; [lia|].
    intros sc Hsc. rewrite processed_target by (cbn; fold gas; lia).
    cbn [driver_task args steps_per_epoch gradient_accumulation_steps
         with_batches_per_epoch ns_gradient_accumulation_steps].
    fold gas. rewrite Hsc, Hdl.
    destruct (Z.leb_spec 1 (spe * gas)); [|nia].
    destruct (Z.leb_spec (spe * gas) len); [|lia].
    cbn [andb]. rewrite Z2Nat.inj_mul by lia. reflexivity.
Qed.

(** X15: with the schedule that the driver computes from the length of the
    training generator, for [gradient_accumulation_steps] between 1 and that
    length, an epoch goes through [steps_per_epoch * gas] batches (fewer than
    [gas] trailing batches are left out), steps the optimizer and the
    scheduler [steps_per_epoch] times each, and when it returns it has
    advanced [global_step] by [steps_per_epoch] too. *)
Theorem driver_epoch_takes_steps_per_epoch_steps
    (ns : Namespace) (pad : Z) (dl : list Batch) (kwargs : Kwargs)
    (w : World) :
  let gas := ns_gradient_accumulation_steps ns in
  let len := Z.of_nat (length dl) in
  let ns' := with_batches_per_epoch ns len in
  model_contract -> Forall well_shaped dl -> supported kwargs ->
  1 <= gas -> gas <= len ->
  exists (sc : Schedule) (new : list event),
    compute_warmup_steps ns' = Ok sc /\
    let spe := sc_steps_per_epoch sc in
    let r := train (driver_task ns' sc pad) dl kwargs w in
    log (snd r) = log w ++ SetTrain :: new /\
    batches_entered new = seq 0 (Z.to_nat (spe * gas)) /\
    0 <= len - spe * gas < gas /\
    Z.of_nat (length (optimizer_steps new)) = spe /\
    Z.of_nat (length (scheduler_steps new)) = spe /\
    (forall la, fst r = Ok la -> global_step (snd r) = global_step w + spe).
Proof.
  intros gas len ns' Hm Hws Hs Hg Hlen.
  destruct (driver_budget ns len pad dl Hg Hlen eq_refl)
    as (Hsc & Hspe & Hb & Hp).
  fold gas in Hsc, Hspe, Hb, Hp. fold ns' in Hsc, Hp.
  eexists. exists (trace gas (Z.to_nat (len / gas) * Z.to_nat gas)).
  split; [exact Hsc|]. cbn [sc_steps_per_epoch]. cbv zeta.
  set (task := driver_task ns' _ pad).
  assert (Hg0 : gradient_accumulation_steps (args task) <> 0)
    by (cbn; fold gas; lia).
  assert (Hproc : processed task dl =
                  (Z.to_nat (len / gas) * Z.to_nat gas)%nat)
    by (apply Hp; reflexivity).
  rewrite (train_run task dl kwargs w Hm Hws Hg0 Hs), train_finish_log.
  unfold end_world. rewrite Hproc.
  change (gradient_accumulation_steps (args task)) with gas.
  split; [reflexivity|].
  rewrite batches_entered_trace, optimizer_steps_trace, scheduler_steps_trace.
  rewrite (count_multiples gas _ ltac:(lia)).
  split; [rewrite Z2Nat.inj_mul by lia; reflexivity|].
  split; [lia|]. split; [lia|]. split; [lia|].
  intros la Hla.
  destruct (train_finish task (end_state task dl kwargs w) _)
    as [r w'] eqn:E.
  cbn [fst] in Hla. subst r. cbn [snd].
  rewrite (train_finish_global_step task _ _ _ _ Hg0 E).
  cbn [global_step]. rewrite end_state_steps, Hproc.
  change (gradient_accumulation_steps (args task)) with gas.
  rewrite Nat2Z.inj_mul, !Z2Nat.id by lia.
  rewrite Z.quot_mul by lia. reflexivity.
Qed.

(** X16: when the training generator has fewer batches than
    [gradient_accumulation_steps], the schedule of the driver has
    [steps_per_epoch = 0] and no training step at all, yet an epoch goes
    through every batch and steps the optimizer and the scheduler once, at the
    first batch, and when it returns [global_step] has not moved. *)
Theorem driver_epoch_with_few_batches
    (ns : Namespace) (pad : Z) (dl : list Batch) (kwargs : Kwargs)
    (w : World) :
  let gas := ns_gradient_accumulation_steps ns in
  let len := Z.of_nat (length dl) in
  let ns' := with_batches_per_epoch ns len in
  model_contract -> Forall well_shaped dl -> supported kwargs ->
  1 <= len -> len < gas ->
  exists (sc : Schedule) (new : list event),
    compute_warmup_steps ns' = Ok sc /\
    sc_steps_per_epoch sc = 0 /\ num_training_steps sc = 0 /\
    let r := train (driver_task ns' sc pad) dl kwargs w in
    log (snd r) = log w ++ SetTrain :: new /\
    batches_entered new = seq 0 (length dl) /\
    optimizer_steps new = [0%nat] /\
    scheduler_steps new = [0%nat] /\
    (forall la, fst r = Ok la -> global_step (snd r) = global_step w).
Proof.
  intros gas len ns' Hm Hws Hs Hlen Hg.
  eexists. exists (trace gas (length dl)).
  split.
  { rewrite compute_warmup_steps_ok by (cbn; fold gas; lia). reflexivity. }
  cbn [with_batches_per_epoch ns' ns_batches_per_epoch
       ns_gradient_accumulation_steps ns_epochs sc_steps_per_epoch
       num_training_steps]. fold gas len.
  assert (Hq : Z.quot len gas = 0) by (apply Z.quot_small; lia).
  rewrite Hq. split; [reflexivity|]. split; [reflexivity|]. cbv zeta.
  set (task := driver_task ns' _ pad).
  assert (Hg0 : gradient_accumulation_steps (args task) <> 0)
    by (cbn; fold gas; lia).
  assert (Hproc : processed task dl = length dl).
  { rewrite processed_target by exact Hg0. reflexivity. }
  rewrite (train_run task dl kwargs w Hm Hws Hg0 Hs), train_finish_log.
  unfold end_world. rewrite Hproc.
  change (gradient_accumulation_steps (args task)) with gas.
  split; [reflexivity|].
  rewrite batches_entered_trace, optimizer_steps_trace, scheduler_steps_trace.
  split; [reflexivity|].
  assert (Hf : filter (fun i => Z.of_nat i mod gas =? 0) (seq 0 (length dl)) =
               [0%nat]).
  { destruct (length dl) as [|k] eqn:Ek; [lia|].
    cbn [seq filter]. rewrite Z.mod_0_l by lia. cbn [Z.eqb]. f_equal.
    apply filter_none. intros i Hi. apply in_seq in Hi.
    apply Z.eqb_neq. rewrite Z.mod_small by lia. lia. }
  split; [exact Hf|]. split; [exact Hf|].
  intros la Hla.
  destruct (train_finish task (end_state task dl kwargs w) _)
    as [r w'] eqn:E.
  cbn [fst] in Hla. subst r. cbn [snd].
  rewrite (train_finish_global_step task _ _ _ _ Hg0 E).
  cbn [global_step]. rewrite end_state_steps, Hproc.
  change (gradient_accumulation_steps (args task)) with gas.
  fold len. rewrite Hq. lia.
Qed.

(** *** The epoch loop of the driver *)

(** What one turn of the epoch loop does to the bookkeeping. *)
Lemma run_epoch_cases (task : Task) (ns : Namespace) (pos_weight : F)
    (train_itr eval_itr : Z -> list Batch) (epoch : Z) (d : Driver)
    (w : World) :
  let res := run_epoch task ns pos_weight train_itr eval_itr epoch d w in
  let d' := snd (fst res) in
  ((exists e, fst (fst res) = Err e) /\
   best_f1 d' = best_f1 d /\ eval_metrics d' = eval_metrics d /\
   checkpoints d' = checkpoints d) \/
  (fst (fst res) = Ok tt /\ ns_eval_every ns <> 0 /\
   length (train_metrics d') = S (length (train_metrics d)) /\
   ((evaluates (ns_eval_every ns) epoch = false /\
     best_f1 d' = best_f1 d /\ eval_metrics d' = eval_metrics d /\
     checkpoints d' = checkpoints d) \/
    (evaluates (ns_eval_every ns) epoch = true /\
     exists scores : Scores,
       let is_best := negb (Qle_bool (eval_f_score scores) (best_f1 d)) in
       best_f1 d' = (if is_best then eval_f_score scores else best_f1 d) /\
       eval_metrics d' = eval_metrics d ++ [(epoch - 1, scores)] /\
       checkpoints d' = checkpoints d ++ [(epoch, is_best)]))).
Proof.
  intros res d'. subst d' res. unfold run_epoch.
  destruct (train task (train_itr epoch) (train_kwargs pos_weight) w)
    as [[la|e] w1]; [|left; cbn; eauto].
  unfold pymod, evaluates.
  destruct (Z.eqb_spec (ns_eval_every ns) 0) as [E0|E0]; [left; cbn; eauto|].
  destruct ((epoch mod ns_eval_every ns =? 0) || (epoch =? 1)) eqn:Ev.
  - destruct (eval task (eval_itr epoch) eval_kwargs w1) as [[scores|e] w2];
      [|left; cbn; eauto].
    right. cbn [fst snd best_f1 eval_metrics checkpoints train_metrics].
    split; [reflexivity|]. split; [exact E0|].
    split; [rewrite length_app; simpl; lia|].
    right. split; [reflexivity|]. exists scores. cbv zeta. auto.
  - right. cbn [fst snd best_f1 eval_metrics checkpoints train_metrics].
    split; [reflexivity|]. split; [exact E0|].
    split; [rewrite length_app; simpl; lia|].
    left. auto.
Qed.

Lemma epochs_from_succ (first : Z) (m : nat) :
  epochs_from first (S m) = first :: epochs_from (first + 1) m.
Proof.
  unfold epochs_from. cbn [seq map]. rewrite Z.add_0_r. f_equal.
  rewrite <- seq_shift, map_map. apply map_ext. intros k. lia.
Qed.

Lemma epoch_loop_schedule (task : Task) (ns : Namespace) (pos_weight : F)
    (train_itr eval_itr : Z -> list Batch) (count : nat) :
  forall (first : Z) (d : Driver) (w : World),
  let res := epoch_loop task ns pos_weight train_itr eval_itr count first
                        d w in
  exists m : nat,
    (m <= count)%nat /\
    map fst (checkpoints (snd (fst res))) =
      map fst (checkpoints d) ++
      filter (evaluates (ns_eval_every ns)) (epochs_from first m) /\
    (fst (fst res) = Ok tt -> m = count).
Proof.
  induction count as [|count IH]; intros first d w res; subst res.
  - exists 0%nat. cbn. rewrite app_nil_r. auto.
  - cbn [epoch_loop].
    pose proof (run_epoch_cases task ns pos_weight train_itr eval_itr first
                  d w) as Hc.
    destruct (run_epoch task ns pos_weight train_itr eval_itr first d w)
      as [[r d1] w1].
    cbn [fst snd] in Hc.
    destruct Hc as [([e He] & _ & _ & Hck) | (Hr & _ & _ & Hc)].
    + subst r. exists 0%nat. cbn [fst snd epochs_from seq map filter].
      rewrite Hck, app_nil_r. split; [lia|]. split; [reflexivity|].
      discriminate.
    + subst r.
      destruct (IH (first + 1) d1 w1) as (m & Hm & Hck & Hok).
      exists (S m). split; [lia|]. split; [|intros H; f_equal; auto].
      rewrite Hck, epochs_from_succ. cbn [filter].
      destruct Hc as [(Hev & _ & _ & Hd) | (Hev & scores & _ & _ & Hd)];
        rewrite Hev, Hd.
      * reflexivity.
      * rewrite map_app, <- app_assoc. reflexivity.
Qed.

(** X17: whatever happens during the run, the checkpoints that the driver
    has saved are those of the epochs it has completed that are epoch 1 or a
    multiple of [eval_every], in order and one each; a run that ends without
    an exception has completed every epoch from 1 to [epochs]. *)
Theorem driver_checkpoint_schedule
    (ns : Namespace) (len_train pad : Z) (pos_weight : F)
    (train_itr eval_itr : Z -> list Batch) (w : World) :
  let res := main_loop ns len_train pad pos_weight train_itr eval_itr w in
  exists m : nat,
    (m <= Z.to_nat (ns_epochs ns))%nat /\
    map fst (checkpoints (snd (fst res))) =
      filter (evaluates (ns_eval_every ns)) (epochs_from 1 m) /\
    (fst (fst res) = Ok tt -> m = Z.to_nat (ns_epochs ns)).
Proof.
  intros res. subst res. unfold main_loop.
  destruct (compute_warmup_steps (with_batches_per_epoch ns len_train))
    as [sc|e].
  - apply (epoch_loop_schedule
             (driver_task (with_batches_per_epoch ns len_train) sc pad)
             (with_batches_per_epoch ns len_train)).
  - exists 0%nat. cbn. split; [lia|]. split; [reflexivity|]. discriminate.
Qed.

Lemma combine_snoc A B (l : list A) (l' : list B) (a : A) (b : B) :
  length l = length l' ->
  combine (l ++ [a]) (l' ++ [b]) = combine l l' ++ [(a, b)].
Proof.
  revert l'. induction l as [|x l IH]; intros [|y l'] H; simpl in H;
    try discriminate; [reflexivity|].
  injection H as H. cbn [app combine]. rewrite (IH l' H). reflexivity.
Qed.

Lemma evaluations_snoc (d d' : Driver) (e s : Z) (scores : Scores)
    (flag : bool) :
  length (eval_metrics d) = length (checkpoints d) ->
  eval_metrics d' = eval_metrics d ++ [(s, scores)] ->
  checkpoints d' = checkpoints d ++ [(e, flag)] ->
  evaluations d' = evaluations d ++ [(eval_f_score scores, flag)].
Proof.
  intros Hlen He Hc. unfold evaluations. rewrite He, Hc, !map_app.
  cbn [map]. rewrite combine_snoc by (rewrite !length_map; exact Hlen).
  reflexivity.
Qed.

Lemma run_epoch_best_tracked (task : Task) (ns : Namespace) (pos_weight : F)
    (train_itr eval_itr : Z -> list Batch) (epoch : Z) (d : Driver)
    (w : World) :
  best_tracked d ->
  best_tracked
    (snd (fst (run_epoch task ns pos_weight train_itr eval_itr epoch d w))).
Proof.
  intros (Hlen & H0 & Hall & Hbest).
  pose proof (run_epoch_cases task ns pos_weight train_itr eval_itr epoch
                d w) as Hc.
  cbv zeta in Hc.
  set (d' := snd (fst (run_epoch task ns pos_weight train_itr eval_itr
                                 epoch d w))) in *.
  assert (Hsame : best_f1 d' = best_f1 d -> eval_metrics d' = eval_metrics d ->
                  checkpoints d' = checkpoints d -> best_tracked d').
  { intros Hb He Hk. unfold best_tracked, evaluations.
    rewrite Hb, He, Hk.
    split; [exact Hlen|]. split; [exact H0|].
    split; [exact Hall|exact Hbest]. }
  destruct Hc as [(_ & Hb & He & Hk) | (_ & _ & _ & Hc)]; [auto|].
  destruct Hc as [(_ & Hb & He & Hk) | (_ & scores & Hb & He & Hk)]; [auto|].
  cbv zeta in Hb, Hk.
  pose proof (evaluations_snoc d d' _ _ _ _ Hlen He Hk) as Hev.
  unfold best_tracked. rewrite Hev, Hb, He, Hk, !length_app. cbn [length].
  destruct (Qle_bool (eval_f_score scores) (best_f1 d)) eqn:Hle;
    cbn [negb].
  - apply Qle_bool_iff in Hle.
    split; [lia|]. split; [exact H0|]. split.
    + intros f flag Hin. apply in_app_or in Hin.
      destruct Hin as [Hin|[Hin|[]]]; [apply Hall; exact Hin|].
      injection Hin as <- <-. split; [exact Hle|discriminate].
    + intros Hpos. destruct (Hbest Hpos) as (f & Hin & Hf).
      exists f. split; [apply in_or_app; left; exact Hin|exact Hf].
  - assert (Hlt : (best_f1 d < eval_f_score scores)%Q).
    { apply Qnot_le_lt. intros Hc. apply Qle_bool_iff in Hc. congruence. }
    split; [lia|]. split; [apply Qlt_le_weak, (Qle_lt_trans _ _ _ H0 Hlt)|].
    split.
    + intros f flag Hin. apply in_app_or in Hin.
      destruct Hin as [Hin|[Hin|[]]].
      * destruct (Hall f flag Hin) as [Hf Hflag]. split; [|exact Hflag].
        apply Qlt_le_weak, (Qle_lt_trans _ _ _ Hf Hlt).
      * injection Hin as <- <-. split; [apply Qle_refl|].
        intros _. apply (Qle_lt_trans _ _ _ H0 Hlt).
    + intros _. exists (eval_f_score scores). split; [|reflexivity].
      apply in_or_app. right. left. reflexivity.
Qed.

Lemma epoch_loop_best_tracked (task : Task) (ns : Namespace) (pos_weight : F)
    (train_itr eval_itr : Z -> list Batch) (count : nat) :
  forall (first : Z) (d : Driver) (w : World),
  best_tracked d ->
  best_tracked
    (snd (fst (epoch_loop task ns pos_weight train_itr eval_itr count first
                          d w))).
Proof.
  induction count as [|count IH]; intros first d w Hd; [exact Hd|].
  cbn [epoch_loop].
  pose proof (run_epoch_best_tracked task ns pos_weight train_itr eval_itr
                first d w Hd) as H1.
  destruct (run_epoch task ns pos_weight train_itr eval_itr first d w)
    as [[[[]|e] d1] w1]; cbn [fst snd] in H1.
  - apply IH. exact H1.
  - exact H1.
Qed.

(** X18: whatever happens during the run, the best F1 that the driver keeps
    is at least 0 and at least every F1 evaluated so far; a checkpoint is
    flagged as best only for an F1 above 0 (and above every earlier one), so
    a model that never scores above 0 never gets a best checkpoint; and a
    best F1 above 0 is the F1 of a checkpoint flagged as best. *)
Theorem driver_tracks_best_f1
    (ns : Namespace) (len_train pad : Z) (pos_weight : F)
    (train_itr eval_itr : Z -> list Batch) (w : World) :
  let d := snd (fst (main_loop ns len_train pad pos_weight train_itr
                               eval_itr w)) in
  length (eval_metrics d) = length (checkpoints d) /\
  (0 <= best_f1 d)%Q /\
  (forall f flag, In (f, flag) (evaluations d) ->
     (f <= best_f1 d)%Q /\ (flag = true -> (0 < f)%Q)) /\
  ((0 < best_f1 d)%Q ->
   exists f, In (f, true) (evaluations d) /\ f = best_f1 d).
Proof.
  intros d. subst d. unfold main_loop.
  assert (H0 : best_tracked driver_init).
  { unfold best_tracked, evaluations. cbn.
    split; [reflexivity|]. split; [apply Qle_refl|].
    split; [intros f flag []|].
    intros H. exfalso. exact (Qlt_irrefl _ H). }
  destruct (compute_warmup_steps (with_batches_per_epoch ns len_train))
    as [sc|e]; [|exact H0].
  apply epoch_loop_best_tracked. exact H0.
Qed.

(** X19: with [eval_every = 0] the run ends in the first epoch: its training
    is done and logged, then the test of line 198 raises
    [ZeroDivisionError] (the modulo comes before the comparison with epoch
    1), and nothing is evaluated and no checkpoint is saved. *)
Theorem driver_zero_eval_every
    (ns : Namespace) (len_train pad : Z) (pos_weight : F)
    (train_itr eval_itr : Z -> list Batch) (w w1 : World)
    (sc : Schedule) (la : Q * Q) :
  let ns' := with_batches_per_epoch ns len_train in
  compute_warmup_steps ns' = Ok sc ->
  1 <= ns_epochs ns -> ns_eval_every ns = 0 ->
  train (driver_task ns' sc pad) (train_itr 1) (train_kwargs pos_weight) w =
    (Ok la, w1) ->
  main_loop ns len_train pad pos_weight train_itr eval_itr w =
  (Err ZeroDivisionError,
   {| best_f1 := 0; train_metrics := [(0, la)]; eval_metrics := [];
      checkpoints := [] |},
   w1).
Proof.
  intros ns' Hsc He Hee Htrain. unfold main_loop. fold ns'. rewrite Hsc.
  cbn [with_batches_per_epoch ns' ns_epochs].
  destruct (Z.to_nat (ns_epochs ns)) as [|k] eqn:Ek; [lia|].
  cbn [epoch_loop]. unfold run_epoch. rewrite Htrain.
  cbn [with_batches_per_epoch ns' ns_eval_every]. rewrite Hee.
  reflexivity.
Qed.

(** *** A complete run of the driver *)






End TokenClassificationTask.


(** ** Evaluation over the concatenation *)

Local Abbreviation qtrain :=
  (train Q qsigmoid qgtb (1 # 2)%Q qforward (fun _ => qloss) qmean).
Local Abbreviation qeval :=
  (eval Q qsigmoid qgtb (1 # 2)%Q qforward (fun _ => qloss) qmean
        macro_prf accuracy_ratio).
Local Abbreviation qinference := (inference Q qsigmoid qgtb qforward).
Local Abbreviation qpreds :=
  (batch_preds Q qsigmoid qgtb (1 # 2)%Q qforward).
Local Abbreviation kw0 := (Build_Kwargs Q None None).

Lemma qforward_contract : model_contract Q qforward.
Proof. intros h src attn. apply shape_tmap. Qed.

(** C2: the accuracy that [eval] returns is [accuracy_score] over the
    concatenation of the filtered label and prediction vectors of all the
    batches, and precision, recall and F1 are the macro averages over the same
    two vectors; this is not the mean of the per-batch accuracies: on the two
    batches [batch_d] (one valid label, accuracy 1) and [batch_c] (three valid
    labels, accuracy 1/3) the returned accuracy is 1/2 and the mean is 2/3. *)
Theorem eval_accuracy_over_concatenation
    (F : Type) (sigmoid : F -> F) (gtb : F -> F -> bool) (th_default : F)
    (forward : list event -> Tensor Z -> Tensor Z -> Tensor F)
    (bce_with_logits : BCEWithLogitsLoss F -> F -> Z -> Q)
    (tensor_mean : list Q -> Q)
    (precision_recall_fscore_support : list Z -> list Z -> Q * Q * Q)
    (accuracy_score : list Z -> list Z -> Q)
    (self : Task) (dl : list Batch) (kwargs : Kwargs F) (w : World) :
  model_contract F forward -> Forall well_shaped dl -> supported F kwargs ->
  dl <> [] ->
  let h := log w ++ [SetEval] in
  let labels := concat (map (batch_labels self) dl) in
  let preds :=
    concat (map (batch_preds F sigmoid gtb th_default forward self h) dl) in
  (exists scores : Scores,
     eval F sigmoid gtb th_default forward bce_with_logits tensor_mean
          precision_recall_fscore_support accuracy_score self dl kwargs w =
       (Ok scores, {| log := h; global_step := global_step w |}) /\
     eval_acc scores = accuracy_score labels preds /\
     (eval_prec scores, eval_rec scores, eval_f_score scores) =
       precision_recall_fscore_support labels preds) /\
  (let self := task_of 1 2 in
   let l1 := batch_labels self batch_d in
   let l2 := batch_labels self batch_c in
   let p1 := qpreds self [SetEval] batch_d in
   let p2 := qpreds self [SetEval] batch_c in
   exists scores : Scores,
     fst (qeval self [batch_d; batch_c] kw0 world0) = Ok scores /\
     length l1 <> length l2 /\
     ~ (accuracy_ratio l1 p1 == accuracy_ratio l2 p2)%Q /\
     (eval_acc scores == 1 # 2)%Q /\
     (mean_of_batch_accuracies accuracy_ratio [l1; l2] [p1; p2] == 2 # 3)%Q /\
     ~ (eval_acc scores ==
        mean_of_batch_accuracies accuracy_ratio [l1; l2] [p1; p2])%Q).
Proof.
  intros Hm Hws Hs Hne h labels preds. split.
  - apply eval_scores; assumption.
  - eexists. split; [vm_compute; reflexivity|].
    repeat split; try (vm_compute; congruence).
Qed.

Lemma eval_accuracy_over_concatenation_witness :
  model_contract Q qforward /\
  Forall well_shaped [batch_a; batch_b] /\
  supported Q kw0 /\
  [batch_a; batch_b] <> [] /\
  exists scores : Scores,
    qeval (task_of 1 2) [batch_a; batch_b] kw0 world0 =
      (Ok scores, {| log := [SetEval]; global_step := 0 |}) /\
    eval_acc scores =
      accuracy_ratio
        (concat (map (batch_labels (task_of 1 2)) [batch_a; batch_b]))
        (concat (map (qpreds (task_of 1 2) [SetEval]) [batch_a; batch_b])).
Proof.
  assert (Hws : Forall well_shaped [batch_a; batch_b])
    by (repeat constructor).
  assert (Hne : [batch_a; batch_b] <> []) by discriminate.
  split; [exact qforward_contract|]. split; [exact Hws|].
  split; [reflexivity|]. split; [exact Hne|].
  destruct (eval_accuracy_over_concatenation Q qsigmoid qgtb (1 # 2)%Q
              qforward (fun _ => qloss) qmean macro_prf accuracy_ratio
              (task_of 1 2) [batch_a; batch_b] kw0 world0
              qforward_contract Hws eq_refl Hne)
    as [(scores & Hrun & Hacc & _) _].
  exists scores. split; [exact Hrun|exact Hacc].
Defined.

(** ** Strict thresholding, on the reals *)






(** ** Runs on concrete inputs *)

Lemma compute_correct_counts_masked_matches_witness :
  shape logits_x = shape mask_x /\
  shape labels_x = shape mask_x /\
  (exists preds labs,
     compute_correct Q qsigmoid qgtb logits_x labels_x mask_x (1 # 2)%Q =
     Ok (masked_matches Q qsigmoid qgtb logits_x labels_x mask_x (1 # 2)%Q,
         preds, labs)) /\
  (exists preds' labs',
     compute_correct Q qsigmoid qgtb logits_y labels_y mask_x (1 # 2)%Q =
     Ok (masked_matches Q qsigmoid qgtb logits_x labels_x mask_x (1 # 2)%Q,
         preds', labs')).
Proof.
  split; [reflexivity|]. split; [reflexivity|].
  destruct (compute_correct_counts_masked_matches Q qsigmoid qgtb
              logits_x labels_x mask_x (1 # 2)%Q eq_refl eq_refl) as [H1 H2].
  split; [exact H1|].
  apply (H2 logits_y labels_y eq_refl eq_refl).
  intros i m. destruct i as [|[|[|i]]]; simpl; intros Hm Hb.
  - split; reflexivity.
  - split; reflexivity.
  - injection Hm as <-. discriminate Hb.
  - destruct i; discriminate Hm.
Defined.

Lemma optimizer_stepped_on_raw_batch_index_witness :
  let self := task_of 2 2 in
  let dl := [batch_a; batch_b; batch_c] in
  model_contract Q qforward /\
  Forall well_shaped dl /\
  gradient_accumulation_steps (args self) <> 0 /\
  supported Q kw0 /\
  exists (n : nat) (new : list event),
    (n <= length dl)%nat /\
    log (snd (qtrain self dl kw0 world0)) = log world0 ++ SetTrain :: new /\
    batches_entered new = seq 0 n /\
    optimizer_steps new = filter (fun i => Z.of_nat i mod 2 =? 0) (seq 0 n) /\
    scheduler_steps new = filter (fun i => Z.of_nat i mod 2 =? 0) (seq 0 n) /\
    (dl <> [] ->
     In 0%nat (optimizer_steps new) /\ In 0%nat (scheduler_steps new)).
Proof.
  intros self dl.
  assert (Hws : Forall well_shaped dl) by (repeat constructor).
  assert (Hg : gradient_accumulation_steps (args self) <> 0)
    by (simpl; lia).
  split; [exact qforward_contract|]. split; [exact Hws|].
  split; [exact Hg|]. split; [reflexivity|].
  exact (optimizer_stepped_on_raw_batch_index Q qsigmoid qgtb (1 # 2)%Q
           qforward (fun _ => qloss) qmean self dl kw0 world0
           qforward_contract Hws Hg eq_refl).
Defined.

Lemma epoch_stops_after_steps_per_epoch_batches_witness :
  let self := task_of 1 2 in
  let dl := [batch_a; batch_b; batch_c] in
  model_contract Q qforward /\
  Forall well_shaped dl /\
  supported Q kw0 /\
  gradient_accumulation_steps (args self) = 1 /\
  1 <= steps_per_epoch (args self) /\
  steps_per_epoch (args self) <= Z.of_nat (length dl) /\
  exists new : list event,
    log (snd (qtrain self dl kw0 world0)) = log world0 ++ SetTrain :: new /\
    batches_entered new = seq 0 (Z.to_nat (steps_per_epoch (args self))).
Proof.
  intros self dl.
  assert (Hws : Forall well_shaped dl) by (repeat constructor).
  assert (H1 : 1 <= steps_per_epoch (args self)) by (simpl; lia).
  assert (H2 : steps_per_epoch (args self) <= Z.of_nat (length dl))
    by (simpl; lia).
  split; [exact qforward_contract|]. split; [exact Hws|].
  split; [reflexivity|]. split; [reflexivity|].
  split; [exact H1|]. split; [exact H2|].
  exact (epoch_stops_after_steps_per_epoch_batches Q qsigmoid qgtb (1 # 2)%Q
           qforward (fun _ => qloss) qmean self dl kw0 world0
           qforward_contract Hws eq_refl eq_refl H1 H2).
Defined.

Lemma train_returns_mean_loss_and_accuracy_witness :
  let self := task_of 2 1 in
  let dl := [batch_a; batch_b; batch_c] in
  model_contract Q qforward /\
  Forall well_shaped dl /\
  gradient_accumulation_steps (args self) <> 0 /\
  supported Q kw0 /\
  dl <> [] /\
  epoch_valid self dl <> 0 /\
  qtrain self dl kw0 world0 =
    (Ok ((epoch_loss Q qforward (fun _ => qloss) qmean self
                     (built_loss Q kw0) [SetTrain] dl /
          (inject_Z 2 / inject_Z 2))%Q,
         (inject_Z (epoch_correct Q qsigmoid qgtb (1 # 2)%Q qforward self
                                  [SetTrain] dl) /
          inject_Z (epoch_valid self dl))%Q),
     {| log := SetTrain :: trace 2 2;
        global_step := pyint (inject_Z 2 / inject_Z 2) |}) /\
  pyint (inject_Z 2 / inject_Z 2) =
    Z.of_nat (length (optimizer_steps (trace 2 2))).
Proof.
  intros self dl.
  assert (Hws : Forall well_shaped dl) by (repeat constructor).
  assert (Hg : gradient_accumulation_steps (args self) <> 0)
    by (simpl; lia).
  assert (Hne : dl <> []) by discriminate.
  assert (Hv : epoch_valid self dl <> 0) by (vm_compute; discriminate).
  split; [exact qforward_contract|]. split; [exact Hws|].
  split; [exact Hg|]. split; [reflexivity|].
  split; [exact Hne|]. split; [exact Hv|].
  destruct (train_returns_mean_loss_and_accuracy Q qsigmoid qgtb (1 # 2)%Q
              qforward (fun _ => qloss) qmean self dl kw0 world0
              qforward_contract Hws Hg eq_refl Hne Hv) as [Hrun Hstep].
  split; [exact Hrun|].
  apply Hstep; [simpl; lia|]. exists 1. reflexivity.
Defined.

Lemma train_divides_by_zero_witness :
  let self := task_of 1 5 in
  let dl := [batch_ignored] in
  supported Q kw0 /\
  model_contract Q qforward /\
  Forall well_shaped dl /\
  gradient_accumulation_steps (args self) <> 0 /\
  dl <> [] /\
  Forall (all_ignored self) dl /\
  qtrain self [] kw0 world0 =
    (Err ZeroDivisionError, {| log := [SetTrain]; global_step := 0 |}) /\
  qtrain self dl kw0 world0 = (Err ZeroDivisionError, end_world self dl world0).
Proof.
  intros self dl.
  assert (Hws : Forall well_shaped dl) by (repeat constructor).
  assert (Hg : gradient_accumulation_steps (args self) <> 0)
    by (simpl; lia).
  assert (Hne : dl <> []) by discriminate.
  assert (Hign : Forall (all_ignored self) dl) by (repeat constructor).
  split; [reflexivity|]. split; [exact qforward_contract|].
  split; [exact Hws|]. split; [exact Hg|]. split; [exact Hne|].
  split; [exact Hign|].
  destruct (train_divides_by_zero Q qsigmoid qgtb (1 # 2)%Q qforward
              (fun _ => qloss) qmean self kw0 world0 eq_refl)
    as [(st & w' & Hloop & _ & _ & Hrun & _) Hall].
  split.
  - injection Hloop as _ <-. exact Hrun.
  - apply (Hall dl qforward_contract Hws Hg Hne Hign).
Defined.

Lemma unsupported_loss_fails_at_construction_witness :
  let kw := Build_Kwargs Q (Some "mse"%string) None in
  let e := NotImplementedError "loss mse not yet implemented" in
  "mse"%string <> "binary_cross_entropy"%string /\
  kw_loss_type Q kw = "mse"%string /\
  get_loss_fn Q "mse" "none" None = Err e /\
  get_loss_fn Q "binary_cross_entropy" "none" None =
    Ok {| reduction := "none"; pos_weight := None |} /\
  qtrain (task_of 1 2) [batch_a] kw world0 =
    (Err e, {| log := [SetTrain]; global_step := 0 |}) /\
  qeval (task_of 1 2) [batch_a] kw world0 =
    (Err e, {| log := [SetEval]; global_step := 0 |}).
Proof.
  intros kw e.
  assert (Hty : "mse"%string <> "binary_cross_entropy"%string)
    by discriminate.
  split; [exact Hty|]. split; [reflexivity|].
  exact (unsupported_loss_fails_at_construction Q qsigmoid qgtb (1 # 2)%Q
           qforward (fun _ => qloss) qmean macro_prf accuracy_ratio
           "mse" "none" None (task_of 1 2) [batch_a] kw world0 Hty eq_refl).
Defined.

Lemma inference_one_list_per_sentence_witness :
  let dl := [batch_a; batch_b] in
  Forall (assertion_holds Q qsigmoid qforward 1 (-100) [SetEval]) dl /\
  exists out : list (list Z),
    qinference dl 1 (-100) (1 # 2)%Q world0 =
      (Ok out, {| log := [SetEval]; global_step := 0 |}) /\
    out = flat_map (batch_sentences Q qsigmoid qgtb qforward 1 (-100)
                                    (1 # 2)%Q [SetEval]) dl /\
    Forall2 (fun row o => length o = valid_count (-100) row /\
                          Forall (fun z => z = 0 \/ z = 1) o)
            (flat_map (fun b : Batch => snd b) dl) out.
Proof.
  intros dl.
  assert (H : Forall (assertion_holds Q qsigmoid qforward 1 (-100) [SetEval])
                     dl) by (repeat constructor).
  split; [exact H|].
  exact (inference_one_list_per_sentence Q qsigmoid qgtb qforward dl 1 (-100)
           (1 # 2)%Q world0 H).
Defined.

Lemma inference_shape_assertion_witness :
  Exists (fun b => shape (infer_mask (-100) b) <>
                   shape (infer_probs Q qsigmoid qforward 1 [SetEval] b))
         [batch_a; batch_misshaped] /\
  fst (qinference [batch_a; batch_misshaped] 1 (-100) (1 # 2)%Q world0) =
    Err AssertionError /\
  Forall (fun b => shape (infer_mask (-100) b) =
                   shape (infer_probs Q qsigmoid qforward 1 [SetEval] b))
         [batch_a; batch_b] /\
  fst (qinference [batch_a; batch_b] 1 (-100) (1 # 2)%Q world0) =
    Ok (flat_map (batch_sentences Q qsigmoid qgtb qforward 1 (-100) (1 # 2)%Q
                                  [SetEval]) [batch_a; batch_b]).
Proof.
  assert (HE : Exists (fun b => shape (infer_mask (-100) b) <>
                   shape (infer_probs Q qsigmoid qforward 1 [SetEval] b))
                 [batch_a; batch_misshaped]).
  { apply Exists_cons_tl, Exists_cons_hd. discriminate. }
  assert (HF : Forall (fun b => shape (infer_mask (-100) b) =
                   shape (infer_probs Q qsigmoid qforward 1 [SetEval] b))
                 [batch_a; batch_b]) by (repeat constructor).
  split; [exact HE|]. split.
  - apply (inference_shape_assertion Q qsigmoid qgtb qforward
             [batch_a; batch_misshaped] 1 (-100) (1 # 2)%Q world0). exact HE.
  - split; [exact HF|].
    apply (inference_shape_assertion Q qsigmoid qgtb qforward
             [batch_a; batch_b] 1 (-100) (1 # 2)%Q world0). exact HF.
Defined.


(** C3 as stated fails for [gradient_accumulation_steps = 0]: the first batch
    is entered and the test of line 102 raises [ZeroDivisionError] before any
    optimizer or scheduler step. *)
Lemma no_step_with_zero_accumulation :
  let r := qtrain (task_of 0 2) [batch_a] kw0 world0 in
  fst r = Err ZeroDivisionError /\
  batches_entered (log (snd r)) = [0%nat] /\
  ~ In 0%nat (optimizer_steps (log (snd r))) /\
  ~ In 0%nat (scheduler_steps (log (snd r))).
Proof.
  vm_compute. repeat split; try reflexivity; intros [].
Qed.

(** C5 as stated fails for [steps_per_epoch = 0]: [steps] is 1 at the first
    test of lines 121-123, so the epoch never breaks and goes through the
    whole dataloader, here two batches and not zero. *)
Lemma zero_steps_per_epoch_never_stops :
  let self := task_of 1 0 in
  let dl := [batch_a; batch_b] in
  gradient_accumulation_steps (args self) = 1 /\
  steps_per_epoch (args self) <= Z.of_nat (length dl) /\
  batches_entered (log (snd (qtrain self dl kw0 world0))) = [0%nat; 1%nat] /\
  batches_entered (log (snd (qtrain self dl kw0 world0))) <>
    seq 0 (Z.to_nat (steps_per_epoch (args self))).
Proof.
  vm_compute. repeat split; try reflexivity; congruence.
Qed.

(** C4 as stated fails twice: an epoch of one batch whose labels all are the
    ignore index returns no pair, and with [gradient_accumulation_steps = 2]
    an epoch of three batches takes two optimizer steps (batches 0 and 2) and
    advances [global_step] by one. *)
Lemma train_pair_and_step_count_fail :
  fst (qtrain (task_of 1 5) [batch_ignored] kw0 world0) =
    Err ZeroDivisionError /\
  (let r := qtrain (task_of 2 2) [batch_a; batch_b; batch_c] kw0 world0 in
   (exists la, fst r = Ok la) /\
   optimizer_steps (log (snd r)) = [0%nat; 2%nat] /\
   global_step (snd r) - global_step world0 = 1 /\
   global_step (snd r) - global_step world0 <>
     Z.of_nat (length (optimizer_steps (log (snd r))))).
Proof.
  vm_compute. repeat split; try reflexivity; try congruence.
  eexists. reflexivity.
Qed.

(** ** Raising the threshold *)

Lemma Rthreshold_antitone (th th' p : R) :
  (th <= th')%R -> threshold R Rgtb th' p <= threshold R Rgtb th p.
Proof.
  intros H. unfold threshold, Rgtb.
  destruct (Rlt_dec th' p) as [H'|H'], (Rlt_dec th p) as [H0|H0]; try lia.
  exfalso. apply H0. exact (Rle_lt_trans _ _ _ H H').
Qed.

Lemma Forall2_map_both A B (R : B -> B -> Prop) (f g : A -> B) (l : list A) :
  (forall x, R (f x) (g x)) -> Forall2 R (map f l) (map g l).
Proof. intros H. induction l; simpl; constructor; auto. Qed.

(** X21: with probabilities as real numbers, raising the threshold of
    [inference] can only turn labels 1 into 0: the two outputs have the same
    lists of the same lengths, and every label under the higher threshold is
    at most the label under the lower one. *)
Theorem raising_threshold_only_removes_positives
    (forward : list event -> Tensor Z -> Tensor Z -> Tensor R)
    (dl : list Batch) (pad ignore : Z) (th th' : R) (w : World) :
  (th <= th')%R ->
  Forall (assertion_holds R Rsigmoid forward pad ignore (log w ++ [SetEval]))
         dl ->
  exists out out' : list (list Z),
    fst (inference R Rsigmoid Rgtb forward dl pad ignore th w) = Ok out /\
    fst (inference R Rsigmoid Rgtb forward dl pad ignore th' w) = Ok out' /\
    Forall2 (Forall2 (fun z z' => z' <= z)) out out'.
Proof.
  intros Hth Hall.
  rewrite (inference_run R Rsigmoid Rgtb forward dl pad ignore th w Hall),
          (inference_run R Rsigmoid Rgtb forward dl pad ignore th' w Hall).
  eexists _, _. split; [reflexivity|]. split; [reflexivity|].
  apply flat_map_Forall2. apply Forall_forall. intros b _.
  rewrite !batch_sentences_valid_logits.
  apply Forall2_map_both. intros row.
  apply Forall2_map_both. intros l. apply Rthreshold_antitone. exact Hth.
Qed.

(** ** Further runs on concrete inputs *)

Local Abbreviation qmain :=
  (main_loop Q qsigmoid qgtb (1 # 2)%Q qforward (fun _ => qloss) qmean
             macro_prf accuracy_ratio).
Local Abbreviation qbatch_loss :=
  (batch_loss Q qforward (fun _ => qloss) qmean).
Local Abbreviation three := [batch_a; batch_b; batch_c].

Lemma three_well_shaped : Forall well_shaped three.
Proof. repeat constructor. Qed.

Lemma compute_correct_vectors_witness :
  length (flatten logits_x) = length (flatten mask_x) /\
  length (flatten labels_x) = length (flatten mask_x) /\
  exists n preds labs,
    compute_correct Q qsigmoid qgtb logits_x labels_x mask_x (1 # 2)%Q =
      Ok (n, preds, labs) /\
    length preds = 2%nat /\ length labs = 2%nat /\
    Forall (fun z => z = 0 \/ z = 1) preds /\
    0 <= n <= 2.
Proof.
  split; [reflexivity|]. split; [reflexivity|].
  exact (compute_correct_vectors Q qsigmoid qgtb logits_x labels_x mask_x
           (1 # 2)%Q eq_refl eq_refl).
Defined.

Lemma epoch_batch_budget_witness :
  let self := task_of 2 1 in
  model_contract Q qforward /\ Forall well_shaped three /\
  gradient_accumulation_steps (args self) <> 0 /\ supported Q kw0 /\
  exists new : list event,
    log (snd (qtrain self three kw0 world0)) = SetTrain :: new /\
    batches_entered new = seq 0 2.
Proof.
  intros self.
  assert (Hg : gradient_accumulation_steps (args self) <> 0)
    by (simpl; lia).
  split; [exact qforward_contract|]. split; [exact three_well_shaped|].
  split; [exact Hg|]. split; [reflexivity|].
  exact (epoch_batch_budget Q qsigmoid qgtb (1 # 2)%Q qforward
           (fun _ => qloss) qmean self three kw0 world0
           qforward_contract three_well_shaped Hg eq_refl).
Defined.

Lemma optimizer_steps_and_counter_witness :
  let self := task_of 2 5 in
  model_contract Q qforward /\ Forall well_shaped three /\
  0 < gradient_accumulation_steps (args self) /\ supported Q kw0 /\
  exists (n : nat) (new : list event),
    log (snd (qtrain self three kw0 world0)) = SetTrain :: new /\
    batches_entered new = seq 0 n /\
    Z.of_nat (length (optimizer_steps new)) = (Z.of_nat n + 2 - 1) / 2 /\
    Z.of_nat (length (scheduler_steps new)) = (Z.of_nat n + 2 - 1) / 2 /\
    (forall la, fst (qtrain self three kw0 world0) = Ok la ->
       let advance := global_step (snd (qtrain self three kw0 world0)) -
                      global_step world0 in
       advance = Z.of_nat n / 2 /\
       advance <= Z.of_nat (length (optimizer_steps new)) <= advance + 1).
Proof.
  intros self.
  assert (Hg : 0 < gradient_accumulation_steps (args self)) by (simpl; lia).
  split; [exact qforward_contract|]. split; [exact three_well_shaped|].
  split; [exact Hg|]. split; [reflexivity|].
  exact (optimizer_steps_and_counter Q qsigmoid qgtb (1 # 2)%Q qforward
           (fun _ => qloss) qmean self three kw0 world0
           qforward_contract three_well_shaped Hg eq_refl).
Defined.

Lemma train_accuracy_in_unit_interval_witness :
  let self := task_of 2 5 in
  model_contract Q qforward /\ Forall well_shaped three /\
  gradient_accumulation_steps (args self) <> 0 /\ supported Q kw0 /\
  three <> [] /\ epoch_valid self three <> 0 /\
  exists (loss acc : Q) (w' : World),
    qtrain self three kw0 world0 = (Ok (loss, acc), w') /\
    (0 <= acc)%Q /\ (acc <= 1)%Q.
Proof.
  intros self.
  assert (Hg : gradient_accumulation_steps (args self) <> 0)
    by (simpl; lia).
  assert (Hne : three <> []) by discriminate.
  assert (Hv : epoch_valid self three <> 0) by (vm_compute; discriminate).
  split; [exact qforward_contract|]. split; [exact three_well_shaped|].
  split; [exact Hg|]. split; [reflexivity|]. split; [exact Hne|].
  split; [exact Hv|].
  exact (train_accuracy_in_unit_interval Q qsigmoid qgtb (1 # 2)%Q qforward
           (fun _ => qloss) qmean self three kw0 world0
           qforward_contract three_well_shaped Hg eq_refl Hne Hv).
Defined.


Lemma train_error_keeps_global_step_witness :
  fst (qtrain (task_of 1 5) [batch_a; batch_ignored; batch_misshaped] kw0
              world0) = Err ValueError /\
  global_step (snd (qtrain (task_of 1 5)
                           [batch_a; batch_ignored; batch_misshaped] kw0
                           world0)) = global_step world0.
Proof.
  assert (H : fst (qtrain (task_of 1 5)
                          [batch_a; batch_ignored; batch_misshaped] kw0
                          world0) = Err ValueError) by reflexivity.
  split; [exact H|].
  exact (train_error_keeps_global_step Q qsigmoid qgtb (1 # 2)%Q qforward
           (fun _ => qloss) qmean (task_of 1 5)
           [batch_a; batch_ignored; batch_misshaped] kw0 world0 ValueError H).
Defined.

Lemma train_rejects_misshaped_batch_witness :
  supported Q kw0 /\
  shape (qforward [SetTrain; ZeroGrad 0] (fst batch_misshaped)
                  (tne (fst batch_misshaped) 1)) <>
    shape (snd batch_misshaped) /\
  qtrain (task_of 0 5) (batch_misshaped :: three) kw0 world0 =
    (Err ValueError,
     {| log := [SetTrain; ZeroGrad 0]; global_step := 0 |}).
Proof.
  assert (H : shape (qforward [SetTrain; ZeroGrad 0] (fst batch_misshaped)
                              (tne (fst batch_misshaped) 1)) <>
              shape (snd batch_misshaped)) by discriminate.
  split; [reflexivity|]. split; [exact H|].
  exact (train_rejects_misshaped_batch Q qsigmoid qgtb (1 # 2)%Q qforward
           (fun _ => qloss) qmean (task_of 0 5) (fst batch_misshaped)
           (snd batch_misshaped) three kw0 world0 eq_refl H).
Defined.

Lemma optimizer_step_follows_its_batch_witness :
  let self := task_of 2 5 in
  model_contract Q qforward /\ Forall well_shaped three /\
  gradient_accumulation_steps (args self) <> 0 /\ supported Q kw0 /\
  exists new : list event,
    log (snd (qtrain self three kw0 world0)) = SetTrain :: new /\
    forall i, In i (optimizer_steps new) ->
      exists pre post,
        new = pre ++ [ZeroGrad i; Backward i; ClipGrad i;
                      OptimizerStep i; SchedulerStep i] ++ post.
Proof.
  intros self.
  assert (Hg : gradient_accumulation_steps (args self) <> 0)
    by (simpl; lia).
  split; [exact qforward_contract|]. split; [exact three_well_shaped|].
  split; [exact Hg|]. split; [reflexivity|].
  exact (optimizer_step_follows_its_batch Q qsigmoid qgtb (1 # 2)%Q qforward
           (fun _ => qloss) qmean self three kw0 world0
           qforward_contract three_well_shaped Hg eq_refl).
Defined.


Lemma inference_of_concatenation_witness :
  Forall (assertion_holds Q qsigmoid qforward 1 (-100) [SetEval])
         ([batch_a] ++ [batch_b]) /\
  exists out1 out2 : list (list Z),
    fst (qinference [batch_a] 1 (-100) (1 # 2)%Q world0) = Ok out1 /\
    fst (qinference [batch_b] 1 (-100) (1 # 2)%Q world0) = Ok out2 /\
    fst (qinference ([batch_a] ++ [batch_b]) 1 (-100) (1 # 2)%Q world0) =
      Ok (out1 ++ out2).
Proof.
  assert (H : Forall (assertion_holds Q qsigmoid qforward 1 (-100) [SetEval])
                     ([batch_a] ++ [batch_b])) by (repeat constructor).
  split; [exact H|].
  exact (inference_of_concatenation Q qsigmoid qgtb qforward [batch_a]
           [batch_b] 1 (-100) (1 # 2)%Q world0 H).
Defined.

Lemma inference_labels_are_compute_correct_predictions_witness :
  assertion_holds Q qsigmoid qforward 1 (-100) [SetEval] batch_a /\
  length (flatten (snd batch_a)) = length (flatten (snd batch_a)) /\
  exists n labs,
    compute_correct Q qsigmoid qgtb
      (infer_logits Q qforward 1 [SetEval] batch_a) (snd batch_a)
      (tne (snd batch_a) (-100)) (1 # 2)%Q =
    Ok (n, concat (batch_sentences Q qsigmoid qgtb qforward 1 (-100)
                                   (1 # 2)%Q [SetEval] batch_a), labs).
Proof.
  split; [reflexivity|]. split; [reflexivity|].
  exact (inference_labels_are_compute_correct_predictions Q qsigmoid qgtb
           qforward 1 (-100) (1 # 2)%Q [SetEval] batch_a (snd batch_a)
           eq_refl eq_refl).
Defined.

Lemma compute_warmup_steps_schedule_witness :
  let ns := with_batches_per_epoch (namespace_of 2 1 2) 7 in
  0 < ns_gradient_accumulation_steps ns /\ 0 <= ns_batches_per_epoch ns /\
  exists sc : Schedule,
    compute_warmup_steps ns = Ok sc /\
    sc_steps_per_epoch sc * 2 <= 7 < (sc_steps_per_epoch sc + 1) * 2 /\
    num_training_steps sc = sc_steps_per_epoch sc * 1 /\
    (num_warmup_steps sc * 2 == inject_Z (3 * sc_steps_per_epoch sc))%Q /\
    (ns_epochs ns = 1 -> 0 < sc_steps_per_epoch sc ->
     (inject_Z (num_training_steps sc) < num_warmup_steps sc)%Q).
Proof.
  intros ns.
  assert (Hg : 0 < ns_gradient_accumulation_steps ns) by (simpl; lia).
  assert (Hb : 0 <= ns_batches_per_epoch ns) by (simpl; lia).
  split; [exact Hg|]. split; [exact Hb|].
  exact (proj2 (compute_warmup_steps_schedule ns) Hg Hb).
Defined.

Lemma driver_epoch_takes_steps_per_epoch_steps_witness :
  let ns := namespace_of 2 3 2 in
  let ns' := with_batches_per_epoch ns 3 in
  model_contract Q qforward /\ Forall well_shaped three /\
  supported Q kw0 /\
  1 <= ns_gradient_accumulation_steps ns /\
  ns_gradient_accumulation_steps ns <= Z.of_nat (length three) /\
  exists (sc : Schedule) (new : list event),
    compute_warmup_steps ns' = Ok sc /\
    let spe := sc_steps_per_epoch sc in
    let r := qtrain (driver_task ns' sc 1) three kw0 world0 in
    log (snd r) = SetTrain :: new /\
    batches_entered new = seq 0 (Z.to_nat (spe * 2)) /\
    0 <= 3 - spe * 2 < 2 /\
    Z.of_nat (length (optimizer_steps new)) = spe /\
    Z.of_nat (length (scheduler_steps new)) = spe /\
    (forall la, fst r = Ok la -> global_step (snd r) = 0 + spe).
Proof.
  intros ns ns'.
  assert (H1 : 1 <= ns_gradient_accumulation_steps ns) by (simpl; lia).
  assert (H2 : ns_gradient_accumulation_steps ns <= Z.of_nat (length three))
    by (simpl; lia).
  split; [exact qforward_contract|]. split; [exact three_well_shaped|].
  split; [reflexivity|]. split; [exact H1|]. split; [exact H2|].
  exact (driver_epoch_takes_steps_per_epoch_steps Q qsigmoid qgtb (1 # 2)%Q
           qforward (fun _ => qloss) qmean ns 1 three kw0 world0
           qforward_contract three_well_shaped eq_refl H1 H2).
Defined.

Lemma driver_epoch_with_few_batches_witness :
  let ns := namespace_of 4 3 2 in
  let ns' := with_batches_per_epoch ns 3 in
  model_contract Q qforward /\ Forall well_shaped three /\
  supported Q kw0 /\
  1 <= Z.of_nat (length three) /\
  Z.of_nat (length three) < ns_gradient_accumulation_steps ns /\
  exists (sc : Schedule) (new : list event),
    compute_warmup_steps ns' = Ok sc /\
    sc_steps_per_epoch sc = 0 /\ num_training_steps sc = 0 /\
    let r := qtrain (driver_task ns' sc 1) three kw0 world0 in
    log (snd r) = SetTrain :: new /\
    batches_entered new = seq 0 3 /\
    optimizer_steps new = [0%nat] /\
    scheduler_steps new = [0%nat] /\
    (forall la, fst r = Ok la -> global_step (snd r) = 0).
Proof.
  intros ns ns'.
  assert (H1 : 1 <= Z.of_nat (length three)) by (simpl; lia).
  assert (H2 : Z.of_nat (length three) < ns_gradient_accumulation_steps ns)
    by (simpl; lia).
  split; [exact qforward_contract|]. split; [exact three_well_shaped|].
  split; [reflexivity|]. split; [exact H1|]. split; [exact H2|].
  exact (driver_epoch_with_few_batches Q qsigmoid qgtb (1 # 2)%Q
           qforward (fun _ => qloss) qmean ns 1 three kw0 world0
           qforward_contract three_well_shaped eq_refl H1 H2).
Defined.

Lemma driver_checkpoint_schedule_witness :
  let res := qmain (namespace_of 2 3 2) 3 1 5%Q train_itr0 eval_itr0 world0 in
  fst (fst res) = Ok tt /\
  map fst (checkpoints (snd (fst res))) = [1; 2] /\
  exists m : nat,
    (m <= 3)%nat /\
    map fst (checkpoints (snd (fst res))) =
      filter (evaluates 2) (epochs_from 1 m) /\
    (fst (fst res) = Ok tt -> m = 3%nat).
Proof.
  intros res. split; [reflexivity|]. split; [reflexivity|].
  exact (driver_checkpoint_schedule Q qsigmoid qgtb (1 # 2)%Q qforward
           (fun _ => qloss) qmean macro_prf accuracy_ratio
           (namespace_of 2 3 2) 3 1 5%Q train_itr0 eval_itr0 world0).
Defined.

Lemma driver_tracks_best_f1_witness :
  let d := snd (fst (qmain (namespace_of 2 3 2) 3 1 5%Q train_itr0 eval_itr0
                           world0)) in
  (0 < best_f1 d)%Q /\
  map snd (checkpoints d) = [true; false] /\
  exists f, In (f, true) (evaluations d) /\ f = best_f1 d.
Proof.
  intros d.
  assert (Hpos : (0 < best_f1 d)%Q) by reflexivity.
  split; [exact Hpos|]. split; [reflexivity|].
  destruct (driver_tracks_best_f1 Q qsigmoid qgtb (1 # 2)%Q qforward
              (fun _ => qloss) qmean macro_prf accuracy_ratio
              (namespace_of 2 3 2) 3 1 5%Q train_itr0 eval_itr0 world0)
    as (_ & _ & _ & Hbest).
  exact (Hbest Hpos).
Defined.

Lemma driver_zero_eval_every_witness :
  let ns := namespace_of 2 3 0 in
  let ns' := with_batches_per_epoch ns 3 in
  let sc := {| sc_steps_per_epoch := 1;
               num_warmup_steps := (inject_Z 1 * (3 # 2))%Q;
               num_training_steps := 3 |} in
  let r := qtrain (driver_task ns' sc 1) (train_itr0 1) (train_kwargs Q 5%Q)
                  world0 in
  compute_warmup_steps ns' = Ok sc /\
  1 <= ns_epochs ns /\ ns_eval_every ns = 0 /\
  (exists la, fst r = Ok la) /\
  fst (fst (qmain ns 3 1 5%Q train_itr0 eval_itr0 world0)) =
    Err ZeroDivisionError /\
  checkpoints (snd (fst (qmain ns 3 1 5%Q train_itr0 eval_itr0 world0))) = [].
Proof.
  intros ns ns' sc r.
  assert (Hsc : compute_warmup_steps ns' = Ok sc) by reflexivity.
  assert (He : 1 <= ns_epochs ns) by (simpl; lia).
  destruct r as [[la|e] w1] eqn:Er; [|vm_compute in Er; discriminate Er].
  split; [exact Hsc|]. split; [exact He|]. split; [reflexivity|].
  split; [exists la; reflexivity|].
  rewrite (driver_zero_eval_every Q qsigmoid qgtb (1 # 2)%Q qforward
             (fun _ => qloss) qmean macro_prf accuracy_ratio ns 3 1 5%Q
             train_itr0 eval_itr0 world0 w1 sc la Hsc He eq_refl Er).
  split; reflexivity.
Defined.


Lemma raising_threshold_only_removes_positives_witness :
  let forward := fun (h : list event) (src attn : Tensor Z) =>
                   tmap (fun t => IZR (t - 2)) src in
  let dl := [([[2; 3]], [[1; 1]])] : list Batch in
  (1 / 2 <= 3 / 4)%R /\
  Forall (assertion_holds R Rsigmoid forward 1 (-100) [SetEval]) dl /\
  exists out out' : list (list Z),
    fst (inference R Rsigmoid Rgtb forward dl 1 (-100) (1 / 2)%R world0) =
      Ok out /\
    fst (inference R Rsigmoid Rgtb forward dl 1 (-100) (3 / 4)%R world0) =
      Ok out' /\
    Forall2 (Forall2 (fun z z' => z' <= z)) out out'.
Proof.
  intros forward dl.
  assert (Hth : (1 / 2 <= 3 / 4)%R) by lra.
  assert (H : Forall (assertion_holds R Rsigmoid forward 1 (-100) [SetEval])
                     dl) by (repeat constructor).
  split; [exact Hth|]. split; [exact H|].
  exact (raising_threshold_only_removes_positives forward dl 1 (-100)
           (1 / 2)%R (3 / 4)%R world0 Hth H).
Defined.
